(** * infinitree: a shallow embedding of [code.py]

    The program drives four PWM LED channels through a table of timed
    animations and keeps a three-valued activation token in a state file.

    Conventions of the embedding:
    - Python [int] is [Z]; Python [float] is an exact canonical rational
      [Qc]: the arithmetic is the ideal one and the rounding of IEEE floats
      is not modelled.  A statement about a computed float is therefore
      worded so that it holds of the rounded computation too: to within one
      count where a float is cut to a whole number, exactly where the
      floats involved are whole numbers (or halves) of at most [exact_int]
      in size, which every float format holds exactly;
    - objects that are mutated in place and shared by reference (the [Led]
      objects) live in a store, a [list Led] addressed by position;
    - code that can raise returns an [outcome] next to the state reached so
      far, since the side effects of a Python call survive its exception;
    - [math.sin], [math.pow], [math.pi], [math.e] and the random source are
      inputs of the model; the monotonic clock is a field of the board that
      is set from outside between tasks and stands still inside one task. *)

From Stdlib Require Import ZArith QArith Qcanon Qround Lia Lqa Ascii String.
From stdpp Require Import base list numbers strings gmap.

Local Open Scope Z_scope.

(** ** Python numbers *)

Module Py.

Definition of_int (n : Z) : Qc := Q2Qc (inject_Z n).

(** [int(x)] on a float: truncation toward zero. *)
Definition int (x : Qc) : Z := Z.quot (Qnum x) (QDen x).

(** [math.floor(x)]. *)
Definition floor (x : Qc) : Z := Qfloor x.

Definition leb (x y : Qc) : bool := Qle_bool x y.
Definition ltb (x y : Qc) : bool := negb (Qle_bool y x).
Definition eqb (x y : Qc) : bool := Qeq_bool x y.

(** [min(x, y)]: the first argument unless the second is strictly smaller. *)
Definition min (x y : Qc) : Qc := if ltb y x then y else x.
Definition minZ (x y : Z) : Z := if y <? x then y else x.

(** [x % m] for a non-zero [m]: the result takes the sign of [m]. *)
Definition mod_ (x m : Qc) : Qc := (x - m * of_int (floor (x / m)))%Qc.

End Py.

(** ** Exceptions and the state-and-exception monad *)

Inductive exn : Type :=
| HaltException
| ValueError
| ZeroDivisionError
| IndexError
| RuntimeError
| OSError
| NotImplementedError.

Global Instance exn_eq_dec : EqDecision exn.
Proof. solve_decision. Defined.

Inductive outcome (A : Type) : Type :=
| Ok (a : A)
| Raise (e : exn).
Arguments Ok {A} a.
Arguments Raise {A} e.

Definition M (S A : Type) : Type := S -> outcome A * S.

Global Instance M_ret {S} : MRet (M S) := fun A a s => (Ok a, s).
Global Instance M_bind {S} : MBind (M S) := fun A B k m s =>
  match m s with
  | (Ok a, s') => k a s'
  | (Raise e, s') => (Raise e, s')
  end.
Definition raise {S A} (e : exn) : M S A := fun s => (Raise e, s).
Definition get {S} : M S S := fun s => (Ok s, s).
Definition put {S} (s : S) : M S unit := fun _ => (Ok tt, s).
Definition modify {S} (f : S -> S) : M S unit := fun s => (Ok tt, f s).

(** [try: body finally: cleanup]: the cleanup runs on both exits; an
    exception of the cleanup replaces the one of the body. *)
Definition try_finally {S A} (body : M S A) (cleanup : M S unit) : M S A :=
  fun s => match body s with
           | (r, s') => match cleanup s' with
                        | (Ok _, s'') => (r, s'')
                        | (Raise e, s'') => (Raise e, s'')
                        end
           end.

(** [try: body except e: handler]. *)
Definition try_except {S A} (body : M S A) (e : exn) (handler : M S A) : M S A :=
  fun s => match body s with
           | (Raise e', s') => if decide (e' = e) then handler s' else (Raise e', s')
           | r => r
           end.

(** [for x in xs: body x]. *)
Fixpoint for_each {S A} (xs : list A) (body : A -> M S unit) : M S unit :=
match xs with
  | [] => mret tt
  | x :: xs' => body x;; for_each xs' body
  end.

(** ** Constants of the module *)

Definition MAX_DUTY_CYCLE : Z := 2 ^ 16 - 1.
Definition pwm_freq : Z := 500.

(** ** class Led

    A [Led] object owns one [pwmio.PWMOut]; the two are kept in one record.
    The register [duty_cycle] is stored as written. *)

Inductive Pin : Type := D5 | D9 | D10 | D12.

Module Led.

Record t : Type := make {
  pin : Pin;
  frequency : Z;
  _max_duty_cycle : Z;
  duty_cycle : Z
}.

Definition with_duty (d : Z) (l : t) : t :=
  make (pin l) (frequency l) (_max_duty_cycle l) d.

(** The store of [Led] objects; a reference is a position in it. *)
Abbreviation store := (list t).
Abbreviation ref := nat.

(** [Led(pin, max_duty_cycle)]: allocates the object, output at 0. *)
Definition init (p : Pin) (max_duty_cycle : Z) : M store ref :=
  fun h => (Ok (length h), h ++ [make p pwm_freq max_duty_cycle 0]).

(** The bodies of the methods on the object itself. *)
Definition on_obj (l : t) : t := with_duty (_max_duty_cycle l) l.
Definition off_obj (l : t) : t := with_duty 0 l.
Definition set_obj (pct : Qc) (l : t) : t :=
  let pct := Py.min pct 1%Qc in
  with_duty
    (Py.minZ (Py.int (Py.of_int (_max_duty_cycle l) * pct)%Qc) (_max_duty_cycle l))
    l.

Definition on (self : ref) : M store unit := modify (alter on_obj self).
Definition off (self : ref) : M store unit := modify (alter off_obj self).
Definition set (self : ref) (pct : Qc) : M store unit :=
  modify (alter (set_obj pct) self).

End Led.

(** ** Python lists and the [math] module *)

(** [l[i]]: a negative index counts from the end; out of range raises. *)
Definition py_index {A S} (l : list A) (i : Z) : M S A :=
  let n := Z.of_nat (length l) in
  let j := if i <? 0 then i + n else i in
  if (j <? 0) || (n <=? j) then raise IndexError
  else match l !! Z.to_nat j with
       | Some x => mret x
       | None => raise IndexError
       end.

(** [x / y] on floats. *)
Definition py_div {S} (x y : Qc) : M S Qc :=
  if Py.eqb y 0%Qc then raise ZeroDivisionError else mret (x / y)%Qc.

(** [x % y] on floats, and on ints. *)
Definition py_mod {S} (x y : Qc) : M S Qc :=
  if Py.eqb y 0%Qc then raise ZeroDivisionError else mret (Py.mod_ x y).
Definition py_modZ {S} (x y : Z) : M S Z :=
  if y =? 0 then raise ZeroDivisionError else mret (x mod y).

(** The transcendental part of [math], left abstract. *)
Record Math : Type := mkMath {
  math_pi : Qc;
  math_e : Qc;
  math_sin : Qc -> Qc;
  math_pow : Qc -> Qc -> Qc
}.

(** The random source: [random.uniform(0, 1)] returns the head of the
    stream and advances it. *)
Abbreviation Rng := (nat -> Qc).

Definition random_uniform : M Rng Qc :=
  fun g => (Ok (g 0%nat), fun n => g (S n)).

(** ** class Animation and its subclasses *)

(** The subclass of an animation object with the attributes it adds. *)
Inductive Variant : Type :=
| Base
| Sine
| FlashAndDecay
| RandomGlitch (glitch_duration : Qc) (glitch_values : list Qc) (frames_per_glitch : Z)
| Blink
| Static (pct : Qc) (is_set : bool).

(** The [leds] argument of a constructor: one [Led] or a list of them. *)
Inductive LedsArg : Type :=
| OneLed (r : Led.ref)
| LedList (rs : list Led.ref).

Module Animation.

Record t : Type := make {
  leds : list Led.ref;
  duration : Qc;
  frame_rate : Z;
  offset : Qc;
  scale_max : Qc;
  frame_count : Z;
  variant : Variant
}.

Definition with_variant (v : Variant) (a : t) : t :=
  make (leds a) (duration a) (frame_rate a) (offset a) (scale_max a)
    (frame_count a) v.

(** [Animation.__init__]. *)
Definition init (leds : LedsArg) (duration : Qc) (frame_rate : Z)
    (offset : Qc) (scale_max : Qc) : t :=
  let leds := match leds with LedList rs => rs | OneLed r => [r] end in
  make leds duration frame_rate offset scale_max
    (Py.int (duration * Py.of_int frame_rate)%Qc) Base.

Definition set_all (self : t) (pct : Qc) : M Led.store unit :=
  let pct := (pct * scale_max self)%Qc in
  for_each (leds self) (fun led => Led.set led pct).

End Animation.

Module Sine.
Definition init leds duration frame_rate offset scale_max : Animation.t :=
  Animation.with_variant Sine (Animation.init leds duration frame_rate offset scale_max).

Definition render (math : Math) (self : Animation.t) (_ completed : Qc)
    : M Led.store Animation.t :=
  let d := (2 * math_pi math * completed)%Qc in
  let v := ((1 + math_sin math d) / 2)%Qc in
  Animation.set_all self v;; mret self.
End Sine.

Module FlashAndDecay.
Definition init leds duration frame_rate offset scale_max : Animation.t :=
  Animation.with_variant FlashAndDecay
    (Animation.init leds duration frame_rate offset scale_max).

Definition render (math : Math) (self : Animation.t) (frame_in_animation completed : Qc)
    : M Led.store Animation.t :=
  Animation.set_all self
    (math_pow math (math_e math) (Py.of_int (-5) * completed)%Qc);;
  mret self.
End FlashAndDecay.

Module RandomGlitch.

(** [for _ in range(n): self.glitch_values.append(random.uniform(0, 1))]. *)
Fixpoint draw_values (n : nat) (acc : list Qc) : M Rng (list Qc) :=
  match n with
  | O => mret acc
  | S n' => v ← random_uniform; draw_values n' (acc ++ [v])
  end.

(** The end of [__init__], once the values are drawn: the check of
    [frame_count] against their number, then [frames_per_glitch]. *)
Definition check (self : Animation.t) (glitch_duration : Qc) (glitch_values : list Qc)
    : M Rng Animation.t :=
  let len := Z.of_nat (length glitch_values) in
  m ← py_modZ (Animation.frame_count self) len;
  if negb (m =? 0) then raise ValueError
  else
    q' ← py_div (Py.of_int (Animation.frame_count self)) (Py.of_int len);
    mret (Animation.with_variant
            (RandomGlitch glitch_duration glitch_values (Py.floor q')) self).

(** [RandomGlitch.__init__]; [glitch_duration] defaults to [0]. *)
Definition init leds duration frame_rate offset scale_max (glitch_duration : Qc)
    : M Rng Animation.t :=
  let self := Animation.init leds duration frame_rate offset scale_max in
  let glitch_duration :=
    if Py.eqb glitch_duration 0%Qc then (duration / Py.of_int 10)%Qc
    else glitch_duration in
  q ← py_div duration glitch_duration;
  glitch_values ← draw_values (Z.to_nat (Py.int q)) [];
  check self glitch_duration glitch_values.

Definition render (self : Animation.t) (glitch_values : list Qc) (frames_per_glitch : Z)
    (frame_in_animation completed : Qc) : M Led.store Animation.t :=
  q ← py_div frame_in_animation (Py.of_int frames_per_glitch);
  let glitch_index := Py.floor q in
  g1 ← py_index glitch_values glitch_index;
  i2 ← py_modZ (glitch_index + 1) (Z.of_nat (length glitch_values));
  g2 ← py_index glitch_values i2;
  step ← py_div (g2 - g1)%Qc (Py.of_int frames_per_glitch);
  let steps := (frame_in_animation - Py.of_int (glitch_index * frames_per_glitch))%Qc in
  Animation.set_all self (g1 + steps * step)%Qc;;
  mret self.

End RandomGlitch.

Module Blink.
Definition init leds duration frame_rate offset scale_max : Animation.t :=
  Animation.with_variant Blink (Animation.init leds duration frame_rate offset scale_max).

Definition render (self : Animation.t) (_ completed : Qc) : M Led.store Animation.t :=
  if Py.leb completed (1 / 2)%Qc
  then Animation.set_all self 0%Qc;; mret self
  else Animation.set_all self 1%Qc;; mret self.
End Blink.

Module Static.
Definition init (pct : Qc) leds duration frame_rate offset scale_max : Animation.t :=
  Animation.with_variant (Static pct false)
    (Animation.init leds duration frame_rate offset scale_max).

Definition render (self : Animation.t) (pct : Qc) (is_set : bool)
    (frame_in_animation completed : Qc) : M Led.store Animation.t :=
  if negb is_set
  then Animation.set_all self pct;;
       mret (Animation.with_variant (Static pct true) self)
  else mret self.
End Static.

(** Method dispatch of [self.render], and [Animation.exec]. *)
Definition render (math : Math) (self : Animation.t) (frame_in_animation completed : Qc)
    : M Led.store Animation.t :=
  match Animation.variant self with
  | Base => raise NotImplementedError
  | Sine => Sine.render math self frame_in_animation completed
  | FlashAndDecay => FlashAndDecay.render math self frame_in_animation completed
  | RandomGlitch _ gv fpg =>
      RandomGlitch.render self gv fpg frame_in_animation completed
  | Blink => Blink.render self frame_in_animation completed
  | Static pct is_set => Static.render self pct is_set frame_in_animation completed
  end.

Definition exec (math : Math) (self : Animation.t) (frame_number : Z)
    : M Led.store Animation.t :=
  let frame_number :=
    (Py.of_int frame_number
     + Animation.offset self * Py.of_int (Animation.frame_rate self))%Qc in
  frame_in_animation ← py_mod frame_number (Py.of_int (Animation.frame_count self));
  completed ← py_div frame_in_animation (Py.of_int (Animation.frame_count self));
  render math self frame_in_animation completed.

(** ** The board: outputs, storage, sensors, console and scheduler *)

Definition state_file : string := "last_state.txt".

Definition STATE_UNKNOWN : string := "UNKNOWN".
Definition STATE_ACTIVE : string := "ACTIVE".
Definition STATE_SLEEP : string := "SLEEP".

(** What [print] sends to the console. *)
Inductive Output : Type :=
| out_fancy_title
| out_last_state (s : string)
| out_animation (current : Z) (animation_names : gset string)
| out_power (voltage temperature : Qc)
| out_going_to_sleep.

(** The tasks handed to [asynccp.Loop]. *)
Inductive Coroutine : Type :=
| draw_frame_task | print_power_task | update_animation_set_task | halt_task.

Inductive Cadence : Type :=
| frequency (hz : Z)
| every_seconds (n : Z)
| later_minutes (n : Z).

Record World : Type := mkWorld {
  hw : Led.store;
  usb : bool;
  fs_readonly : bool;
  files : gmap string string;
  rng : Rng;
  monotonic_ns : Z;
  vbat_value : Z;
  cpu_temperature : Qc;
  stdout : list Output;
  loop_tasks : list (Cadence * Coroutine);
  loop_running : bool;
  sleeping : bool
}.

Definition set_hw (h : Led.store) (w : World) : World :=
  mkWorld h (usb w) (fs_readonly w) (files w) (rng w) (monotonic_ns w)
    (vbat_value w) (cpu_temperature w) (stdout w) (loop_tasks w) (loop_running w)
    (sleeping w).
Definition set_fs_readonly (b : bool) (w : World) : World :=
  mkWorld (hw w) (usb w) b (files w) (rng w) (monotonic_ns w)
    (vbat_value w) (cpu_temperature w) (stdout w) (loop_tasks w) (loop_running w)
    (sleeping w).
Definition set_files (f : gmap string string) (w : World) : World :=
  mkWorld (hw w) (usb w) (fs_readonly w) f (rng w) (monotonic_ns w)
    (vbat_value w) (cpu_temperature w) (stdout w) (loop_tasks w) (loop_running w)
    (sleeping w).
Definition set_rng (g : Rng) (w : World) : World :=
  mkWorld (hw w) (usb w) (fs_readonly w) (files w) g (monotonic_ns w)
    (vbat_value w) (cpu_temperature w) (stdout w) (loop_tasks w) (loop_running w)
    (sleeping w).
Definition set_monotonic_ns (t : Z) (w : World) : World :=
  mkWorld (hw w) (usb w) (fs_readonly w) (files w) (rng w) t
    (vbat_value w) (cpu_temperature w) (stdout w) (loop_tasks w) (loop_running w)
    (sleeping w).
Definition set_stdout (o : list Output) (w : World) : World :=
  mkWorld (hw w) (usb w) (fs_readonly w) (files w) (rng w) (monotonic_ns w)
    (vbat_value w) (cpu_temperature w) o (loop_tasks w) (loop_running w)
    (sleeping w).
Definition set_loop_tasks (l : list (Cadence * Coroutine)) (w : World) : World :=
  mkWorld (hw w) (usb w) (fs_readonly w) (files w) (rng w) (monotonic_ns w)
    (vbat_value w) (cpu_temperature w) (stdout w) l (loop_running w)
    (sleeping w).
Definition set_loop_running (b : bool) (w : World) : World :=
  mkWorld (hw w) (usb w) (fs_readonly w) (files w) (rng w) (monotonic_ns w)
    (vbat_value w) (cpu_temperature w) (stdout w) (loop_tasks w) b
    (sleeping w).
Definition set_sleeping (b : bool) (w : World) : World :=
  mkWorld (hw w) (usb w) (fs_readonly w) (files w) (rng w) (monotonic_ns w)
    (vbat_value w) (cpu_temperature w) (stdout w) (loop_tasks w) (loop_running w)
    b.

(** Running a computation on one component of the state. *)
Definition zoom {S T A} (proj : S -> T) (upd : T -> S -> S) (m : M T A) : M S A :=
  fun s => match m (proj s) with (r, t') => (r, upd t' s) end.

Definition on_hw {A} (m : M Led.store A) : M World A := zoom hw set_hw m.
Definition on_rng {A} (m : M Rng A) : M World A := zoom rng set_rng m.

Definition print (o : Output) : M World unit :=
  modify (fun w => set_stdout (stdout w ++ [o]) w).

(** [storage.remount("/", readonly=...)]: refused with [RuntimeError] while
    the USB host holds the drive. *)
Definition storage_remount (readonly : bool) : M World unit :=
  fun w => if usb w then (Raise RuntimeError, w)
           else (Ok tt, set_fs_readonly readonly w).

(** [os.stat(path)]. *)
Definition os_stat (path : string) : M World unit :=
  fun w => match files w !! path with
           | Some _ => (Ok tt, w)
           | None => (Raise OSError, w)
           end.

(** [with open(path, "r") as f: f.read()]. *)
Definition read_file (path : string) : M World string :=
  fun w => match files w !! path with
           | Some s => (Ok s, w)
           | None => (Raise OSError, w)
           end.

(** [with open(path, "w") as f: f.write(s)]. *)
Definition write_file (path : string) (s : string) : M World unit :=
  fun w => if fs_readonly w then (Raise OSError, w)
           else (Ok tt, set_files (<[path := s]> (files w)) w).

(** [str.strip()]. *)
Definition is_space (c : ascii) : bool :=
  let n := nat_of_ascii c in
  (n =? 32)%nat || ((9 <=? n)%nat && (n <=? 13)%nat).

Fixpoint lstrip (s : string) : string :=
  match s with
  | String c s' => if is_space c then lstrip s' else s
  | EmptyString => EmptyString
  end.

Fixpoint rstrip (s : string) : string :=
  match s with
  | String c s' =>
      match rstrip s' with
      | EmptyString => if is_space c then EmptyString else String c EmptyString
      | r => String c r
      end
  | EmptyString => EmptyString
  end.

Definition strip (s : string) : string := rstrip (lstrip s).

Definition is_usb_connected : M World bool :=
  try_except
    (storage_remount false;; storage_remount true;; mret false)
    RuntimeError
    (mret true).

(** ** class App *)

Definition class_name (v : Variant) : string :=
  match v with
  | Base => "Animation"
  | Sine => "Sine"
  | FlashAndDecay => "FlashAndDecay"
  | RandomGlitch _ _ _ => "RandomGlitch"
  | Blink => "Blink"
  | Static _ _ => "Static"
  end.

Module App.

Record t : Type := make {
  start : Z;
  frame_rate : Z;
  leds : list Led.ref;
  led_light_green : Led.ref;
  led_star : Led.ref;
  led_red : Led.ref;
  led_green : Led.ref;
  current_animation : Z;
  switch_every : Z;
  animations : list (list Animation.t)
}.

Definition with_start (x : Z) (a : t) : t :=
  make x (frame_rate a) (leds a) (led_light_green a) (led_star a) (led_red a)
    (led_green a) (current_animation a) (switch_every a) (animations a).
Definition with_current_animation (x : Z) (a : t) : t :=
  make (start a) (frame_rate a) (leds a) (led_light_green a) (led_star a) (led_red a)
    (led_green a) x (switch_every a) (animations a).
Definition with_animations (x : list (list Animation.t)) (a : t) : t :=
  make (start a) (frame_rate a) (leds a) (led_light_green a) (led_star a) (led_red a)
    (led_green a) (current_animation a) (switch_every a) x.

(** The state of a method call: the object and the board. *)
Abbreviation Sys := (t * World)%type.

Definition self : M Sys t := fun s => (Ok (fst s), s).
Definition update_self (f : t -> t) : M Sys unit := modify (fun s => (f (fst s), snd s)).
Definition world {A} (m : M World A) : M Sys A :=
  zoom snd (fun w s => (fst s, w)) m.

(** *** Persisted activation state *)

Definition set_state (state : string) : M World unit :=
  u ← is_usb_connected;
  if u : bool then mret tt
  else
    try_finally
      (storage_remount false;; write_file state_file state)
      (storage_remount true).

Definition get_last_state : M World string :=
  try_except
    (s ← read_file state_file; mret (strip s))
    OSError
    (mret STATE_UNKNOWN).

Definition init_state_file : M World unit :=
  try_except (os_stat state_file) OSError (set_state STATE_ACTIVE).

(** *** Outputs *)

(** [register_led] appends to [self.leds]; the list under construction is
    passed along. *)
Definition register_led (self_leds : list Led.ref) (p : Pin) (max_duty_cycle : Z)
    : M World (Led.ref * list Led.ref) :=
  led ← on_hw (Led.init p max_duty_cycle);
  mret (led, self_leds ++ [led]).

Definition blank (self_leds : list Led.ref) : M World unit :=
  on_hw (for_each self_leds Led.off).

(** *** [App.__init__] *)

(** The body of [__init__] below its first statement. *)
Definition init_body (frame_rate : Z) : M World t :=
  let start := 0 in
  let leds := [] in
  '(led_light_green, leds) ← register_led leds D5 MAX_DUTY_CYCLE;
  '(led_star, leds) ← register_led leds D9 (2 ^ 14);
  '(led_red, leds) ← register_led leds D10 MAX_DUTY_CYCLE;
  '(led_green, leds) ← register_led leds D12 (2 ^ 14);
  blank leds;;
  let current_animation := 0 in
  let switch_every := 15 in
  let main_fade_duration := Py.of_int 5 in
  inv ← py_div 1%Qc (Py.of_int frame_rate);
  candle ← on_rng (RandomGlitch.init (OneLed led_star) (Py.of_int 2) frame_rate
                     0%Qc 1%Qc (inv * Py.of_int 5)%Qc);
  let scene0 := [FlashAndDecay.init (LedList leds) (Py.of_int 2) frame_rate 0%Qc 1%Qc] in
  let scene1 :=
    [Blink.init (LedList [led_green; led_light_green]) 1%Qc frame_rate 0%Qc 1%Qc;
     Blink.init (OneLed led_red) 1%Qc frame_rate (1 / 2)%Qc 1%Qc;
     candle] in
  let scene2 :=
    [Sine.init (OneLed led_green) main_fade_duration frame_rate 0%Qc 1%Qc;
     Sine.init (OneLed led_red) main_fade_duration frame_rate
       (main_fade_duration / 2)%Qc 1%Qc;
     candle] in
  g_red ← on_rng (RandomGlitch.init (OneLed led_red) (Py.of_int 4) frame_rate
                    0%Qc 1%Qc 0%Qc);
  g_green ← on_rng (RandomGlitch.init (OneLed led_green) (Py.of_int 4) frame_rate
                      0%Qc 1%Qc 0%Qc);
  g_light ← on_rng (RandomGlitch.init (OneLed led_light_green) (Py.of_int 2) frame_rate
                      0%Qc 1%Qc 0%Qc);
  let scene3 := [g_red; g_green; g_light; candle] in
  let scene4 := [Blink.init (LedList leds) 1%Qc frame_rate 0%Qc 1%Qc] in
  let scene5 := [FlashAndDecay.init (LedList leds) (Py.of_int 2) frame_rate 0%Qc 1%Qc] in
  mret (make start frame_rate leds led_light_green led_star led_red led_green
          current_animation switch_every
          [scene0; scene1; scene2; scene3; scene4; scene5]).

Definition init (frame_rate : Z) : M World t :=
  u ← is_usb_connected;
  (if negb (u : bool) then init_state_file else mret tt);;
  init_body frame_rate.

(** *** Time *)

Definition elapsed : M Sys Qc :=
  me ← self;
  now ← world (fun w => (Ok (monotonic_ns w), w));
  mret (Py.of_int (now - start me) / Py.of_int 1000000000)%Qc.

Definition frame_number : M Sys Z :=
  me ← self;
  e ← elapsed;
  mret (Py.int (Py.of_int (frame_rate me) * e)%Qc).

(** *** Tasks *)

(** [for animation in scene: animation.exec(frame)]; the objects of the
    scene come back with the state their [render] left. *)
Fixpoint exec_scene (math : Math) (scene : list Animation.t) (frame : Z)
    : M Led.store (list Animation.t) :=
  match scene with
  | [] => mret []
  | animation :: rest =>
      animation' ← exec math animation frame;
      rest' ← exec_scene math rest frame;
      mret (animation' :: rest')
  end.

Definition draw_frame (math : Math) : M Sys unit :=
  frame ← frame_number;
  me ← self;
  scene ← py_index (animations me) (current_animation me);
  scene' ← world (on_hw (exec_scene math scene frame));
  let i := current_animation me in
  let i := if i <? 0 then i + Z.of_nat (length (animations me)) else i in
  update_self (with_animations (<[Z.to_nat i := scene']> (animations me))).

Definition update_animation_set : M Sys unit :=
  e ← elapsed;
  if Py.leb e (Py.of_int 2) then mret tt
  else
    me ← self;
    due ← (if current_animation me =? 0 then mret true
           else
             e ← elapsed;
             m ← py_mod e (Py.of_int (switch_every me));
             mret (Py.int m =? 0));
    if due : bool then
      update_self (fun me => with_current_animation (current_animation me + 1) me);;
      me ← self;
      (if Z.of_nat (length (animations me)) <=? current_animation me
       then update_self (with_current_animation 1)
       else mret tt);;
      me ← self;
      scene ← py_index (animations me) (current_animation me);
      let animation_names : gset string :=
        foldl (fun names clz => names ∪ {[class_name (Animation.variant clz)]}) ∅ scene in
      world (print (out_animation (current_animation me) animation_names))
    else mret tt.

Definition print_power : M Sys unit :=
  world (fun w =>
    let v := (Py.of_int (vbat_value w) * Q2Qc (33 # 10) / Py.of_int 65536
              * Py.of_int 2)%Qc in
    print (out_power v (cpu_temperature w)) w).

Definition halt {A} : M Sys A :=
  world (print out_going_to_sleep);;
  world (set_state STATE_SLEEP);;
  me ← self;
  world (blank (leds me));;
  raise HaltException.

(** *** [App.run]

    The scheduler [asynccp.Loop] is a library: [schedule] and
    [schedule_later] record the task, [loop.run()] marks the loop as
    running and the tasks are then invoked from outside. *)

Definition loop_schedule (c : Cadence) (co : Coroutine) : M World unit :=
  modify (fun w => set_loop_tasks (loop_tasks w ++ [(c, co)]) w).

Definition loop_run : M World unit := modify (set_loop_running true).

Definition run (run_for : Z) : M Sys unit :=
  world (print out_fancy_title);;
  s ← world get_last_state;
  world (print (out_last_state s));;
  s ← world get_last_state;
  (if String.eqb s STATE_ACTIVE then
     u ← world is_usb_connected;
     if negb (u : bool) then halt else mret tt
   else mret tt);;
  s ← world get_last_state;
  (if String.eqb s STATE_SLEEP then world (set_state STATE_ACTIVE) else mret tt);;
  me ← self;
  world (loop_schedule (frequency (frame_rate me)) draw_frame_task);;
  world (loop_schedule (every_seconds 5) print_power_task);;
  world (loop_schedule (every_seconds 1) update_animation_set_task);;
  world (loop_schedule (later_minutes run_for) halt_task);;
  now ← world (fun w => (Ok (monotonic_ns w), w));
  update_self (with_start now);;
  world loop_run.

End App.

(** ** The script: [App().run(run_for=60 * 4)] under its handler *)

Definition time_sleep_forever : M World unit := modify (set_sleeping true).

(** [App().run(run_for=60 * 4)]: the object lives only inside the call. *)
Definition start_app : M World unit :=
  fun w => match App.init 25 w with
           | (Ok app, w') =>
               match App.run (60 * 4) (app, w') with
               | (r, (_, w'')) => (r, w'')
               end
           | (Raise e, w') => (Raise e, w')
           end.

Definition main : M World unit :=
  try_except start_app HaltException time_sleep_forever.

(** * Vocabulary of the statements *)

(** The frame inside the period and the completed fraction that [exec]
    hands to [render]. *)
Definition frame_in_animation (self : Animation.t) (frame_number : Z) : Qc :=
  Py.mod_ (Py.of_int frame_number
           + Animation.offset self * Py.of_int (Animation.frame_rate self))%Qc
          (Py.of_int (Animation.frame_count self)).

Definition completed (self : Animation.t) (frame_number : Z) : Qc :=
  (frame_in_animation self frame_number / Py.of_int (Animation.frame_count self))%Qc.

(** Partial correctness of a run: what holds of the result when the
    computation returns. *)
Definition post {S A} (m : M S A) (s : S) (Q : A -> S -> Prop) : Prop :=
  match m s with
  | (Ok a, s') => Q a s'
  | (Raise _, _) => True
  end.

Definition is_static (v : Variant) : bool :=
  match v with Static _ _ => true | _ => false end.

(** Any number of [exec] calls on one object, frame after frame. *)
Fixpoint exec_frames (math : Math) (self : Animation.t) (frames : list Z)
    : M Led.store Animation.t :=
  match frames with
  | [] => mret self
  | f :: rest => self' ← exec math self f; exec_frames math self' rest
  end.

Definition no_math : Math := mkMath 0%Qc 0%Qc (fun _ => 0%Qc) (fun _ _ => 0%Qc).

(** What [RandomGlitch.__init__] does, case by case; [gd'] is the glitch
    duration after defaulting. *)
Inductive init_result (d gd' : Qc) (self : Animation.t)
    : outcome Animation.t -> Prop :=
| init_no_duration :
    gd' = 0%Qc -> init_result d gd' self (Raise ZeroDivisionError)
| init_no_segment :
    gd' <> 0%Qc -> Py.int (d / gd') <= 0 ->
    init_result d gd' self (Raise ZeroDivisionError)
| init_not_divisible :
    gd' <> 0%Qc -> 0 < Py.int (d / gd') ->
    Animation.frame_count self mod Py.int (d / gd') <> 0 ->
    init_result d gd' self (Raise ValueError)
| init_ok (gv : list Qc) :
    gd' <> 0%Qc -> 0 < Py.int (d / gd') ->
    Animation.frame_count self mod Py.int (d / gd') = 0 ->
    Z.of_nat (length gv) = Py.int (d / gd') ->
    init_result d gd' self
      (Ok (Animation.with_variant
             (RandomGlitch gd' gv (Animation.frame_count self / Py.int (d / gd')))
             self)).

Definition elapsed_at (app : App.t) (w : World) : Qc :=
  (Py.of_int (monotonic_ns w - App.start app) / Py.of_int 1000000000)%Qc.

(** The index that the rotation moves to. *)
Definition next_animation (app : App.t) : Z :=
  if Z.of_nat (length (App.animations app)) <=? App.current_animation app + 1
  then 1 else App.current_animation app + 1.

(** Whether the rotation is due at elapsed time [e]. *)
Definition rotation_due (app : App.t) (e : Qc) : bool :=
  (App.current_animation app =? 0)
  || (Py.int (Py.mod_ e (Py.of_int (App.switch_every app))) =? 0).

Definition boot_leds : Led.store :=
  [Led.make D5 pwm_freq MAX_DUTY_CYCLE 0; Led.make D9 pwm_freq (2 ^ 14) 0;
   Led.make D10 pwm_freq MAX_DUTY_CYCLE 0; Led.make D12 pwm_freq (2 ^ 14) 0].

(** The board after the first statement of [__init__]. *)
Definition after_state_init (w : World) : World :=
  if usb w then w
  else match files w !! state_file with
       | Some _ => set_fs_readonly true w
       | None =>
           set_fs_readonly true
             (set_files (<[state_file := STATE_ACTIVE]> (files w)) w)
       end.

Definition scheduled (frame_rate run_for : Z) : list (Cadence * Coroutine) :=
  [(frequency frame_rate, draw_frame_task);
   (every_seconds 5, print_power_task);
   (every_seconds 1, update_animation_set_task);
   (later_minutes run_for, halt_task)].

(** One invocation of the rotation task by the loop, at clock reading [now]. *)
Definition tick (now : Z) : M App.Sys unit :=
  App.world (modify (set_monotonic_ns now));; App.update_animation_set.

Definition index_ok (app : App.t) : Prop :=
  0 < App.switch_every app /\
  2 <= Z.of_nat (length (App.animations app)) /\
  0 <= App.current_animation app < Z.of_nat (length (App.animations app)).

Definition all_blank (h : Led.store) : Prop :=
  Forall (fun l => Led.duty_cycle l = 0) h.

(** Boards and objects on which the statements are exercised. *)
Definition cold_boot (usb_host : bool) (disk : gmap string string) : World :=
  mkWorld [] usb_host true disk (fun _ => 0%Qc) 0 0 0%Qc [] [] false false.

Definition one_led : Led.store := [Led.make D5 pwm_freq MAX_DUTY_CYCLE 0].

Definition six_scenes : App.t :=
  App.make 0 25 [0; 1; 2; 3]%nat 0%nat 1%nat 2%nat 3%nat 0 15 [[]; []; []; []; []; []].

(** A board whose four channels are lit. *)
Definition lit_leds : Led.store :=
  [Led.make D5 pwm_freq MAX_DUTY_CYCLE MAX_DUTY_CYCLE;
   Led.make D9 pwm_freq (2 ^ 14) 1000;
   Led.make D10 pwm_freq MAX_DUTY_CYCLE 1;
   Led.make D12 pwm_freq (2 ^ 14) (2 ^ 14)].

(** Whole numbers of at most this size are held exactly by a Python float,
    in double and in single precision. *)
Definition exact_int : Z := 2 ^ 24.

(** Clock readings at most this many nanoseconds away from [start]. *)
Definition clock_range : Z := 2 ^ 62.

(** The channels among [leds] have the ceilings of a 16-bit PWM register. *)
Definition sixteen_bit (h : Led.store) (leds : list Led.ref) : Prop :=
  forall (r : Led.ref) (l : Led.t),
    r ∈ leds -> h !! r = Some l -> 0 <= Led._max_duty_cycle l <= MAX_DUTY_CYCLE.

(** A channel at or below its ceiling. *)
Definition within_ceiling (l : Led.t) : Prop :=
  Led.duty_cycle l <= Led._max_duty_cycle l.

(** An animation that [exec] can render: a non-zero [frame_count], a
    subclass with a [render], and for the randomized flicker what its
    constructor guarantees. *)
Definition renderable (a : Animation.t) : bool :=
  negb (Animation.frame_count a =? 0)
  && match Animation.variant a with
     | Base => false
     | RandomGlitch _ gv fpg =>
         (0 <? Z.of_nat (length gv))
         && (fpg * Z.of_nat (length gv) =? Animation.frame_count a)
     | _ => true
     end.

(** A table the loop can run: the index inside, every animation renderable. *)
Definition table_ok (app : App.t) : Prop :=
  index_ok app /\
  Forall (Forall (fun a => renderable a = true)) (App.animations app).

(** The loop calling one of its coroutines at clock reading [now]. *)
Definition invoke (math : Math) (call : Z * Coroutine) : M App.Sys unit :=
  App.world (modify (set_monotonic_ns call.1));;
  match call.2 with
  | draw_frame_task => App.draw_frame math
  | print_power_task => App.print_power
  | update_animation_set_task => App.update_animation_set
  | halt_task => App.halt
  end.

(** What [get_last_state] reads on a board. *)
Definition last_state (w : World) : string :=
  match files w !! state_file with
  | Some s => strip s
  | None => STATE_UNKNOWN
  end.

(** The board once [run] has scheduled its tasks and started the loop. *)
Definition loop_started (frame_rate run_for : Z) (w : World) : World :=
  set_loop_running true
    (set_loop_tasks (loop_tasks w ++ scheduled frame_rate run_for) w).

(** * Numbers *)

Lemma Qfloor_unique (q : Q) (z : Z) :
  (inject_Z z <= q)%Q -> (q < inject_Z (z + 1))%Q -> Qfloor q = z.
Proof.
  intros H1 H2.
  pose proof (Qfloor_le q) as H3. pose proof (Qlt_floor q) as H4.
  assert (inject_Z z < inject_Z (Qfloor q + 1))%Q as A by (eapply Qle_lt_trans; eauto).
  assert (inject_Z (Qfloor q) < inject_Z (z + 1))%Q as B by (eapply Qle_lt_trans; eauto).
  rewrite <- Zlt_Qlt in A, B. lia.
Qed.

Lemma of_int_this n : (this (Py.of_int n) == inject_Z n)%Q.
Proof. simpl. apply Qred_correct. Qed.

Lemma of_int_add a b : Py.of_int (a + b) = (Py.of_int a + Py.of_int b)%Qc.
Proof. apply Qc_is_canon. simpl. rewrite !Qred_correct, inject_Z_plus. reflexivity. Qed.

Lemma of_int_mul a b : Py.of_int (a * b) = (Py.of_int a * Py.of_int b)%Qc.
Proof. apply Qc_is_canon. simpl. rewrite !Qred_correct, inject_Z_mult. reflexivity. Qed.

Lemma of_int_inj a b : Py.of_int a = Py.of_int b -> a = b.
Proof.
  intros H. apply (f_equal this) in H. simpl in H.
  apply (f_equal Qfloor) in H.
  by rewrite !(Qfloor_comp _ _ (Qred_correct _)), !Qfloor_Z in H.
Qed.

Lemma of_int_le a b : (Py.of_int a <= Py.of_int b)%Qc <-> a <= b.
Proof. unfold Qcle. rewrite !of_int_this, <- Zle_Qle. reflexivity. Qed.

Lemma of_int_lt a b : (Py.of_int a < Py.of_int b)%Qc <-> a < b.
Proof. unfold Qclt. rewrite !of_int_this, <- Zlt_Qlt. reflexivity. Qed.

Lemma eqb_eq x y : Py.eqb x y = true <-> x = y.
Proof.
  unfold Py.eqb. rewrite Qeq_bool_iff. split; [apply Qc_is_canon | by intros ->].
Qed.

Lemma eqb_neq x y : Py.eqb x y = false <-> x <> y.
Proof. rewrite <- eqb_eq. destruct (Py.eqb x y); intuition congruence. Qed.

Lemma leb_le x y : Py.leb x y = true <-> (x <= y)%Qc.
Proof. unfold Py.leb, Qcle. apply Qle_bool_iff. Qed.

Lemma leb_gt x y : Py.leb x y = false <-> (y < x)%Qc.
Proof.
  rewrite <- not_true_iff_false, leb_le. split; [apply Qcnot_le_lt | apply Qclt_not_le].
Qed.

Lemma ltb_lt x y : Py.ltb x y = true <-> (x < y)%Qc.
Proof. unfold Py.ltb. rewrite negb_true_iff. apply leb_gt. Qed.

Lemma floor_le (x : Qc) : (Py.of_int (Py.floor x) <= x)%Qc.
Proof. unfold Qcle. rewrite of_int_this. apply Qfloor_le. Qed.

Lemma floor_lt (x : Qc) : (x < Py.of_int (Py.floor x + 1))%Qc.
Proof. unfold Qclt. rewrite of_int_this. apply Qlt_floor. Qed.

Lemma floor_unique (x : Qc) (z : Z) :
  (Py.of_int z <= x)%Qc -> (x < Py.of_int (z + 1))%Qc -> Py.floor x = z.
Proof.
  unfold Qcle, Qclt. rewrite !of_int_this. apply Qfloor_unique.
Qed.

Lemma floor_add_int (x : Qc) (k : Z) : Py.floor (x + Py.of_int k)%Qc = Py.floor x + k.
Proof.
  apply floor_unique.
  - rewrite of_int_add. apply Qcplus_le_mono_r, floor_le.
  - replace (Py.floor x + k + 1) with ((Py.floor x + 1) + k) by lia.
    rewrite of_int_add. apply Qcplus_lt_mono_r, floor_lt.
Qed.

Lemma floor_of_int (k : Z) : Py.floor (Py.of_int k) = k.
Proof.
  apply floor_unique; [apply Qcle_refl | apply of_int_lt; lia].
Qed.

(** [int] agrees with [floor] on non-negative numbers. *)
Lemma int_floor_nonneg (x : Qc) : (0 <= x)%Qc -> Py.int x = Py.floor x.
Proof.
  destruct x as [[n d] Hc]. unfold Qcle, Qle, Py.int, Py.floor. simpl.
  intros H. apply Z.quot_div_nonneg; lia.
Qed.

Lemma int_ge_1 (x : Qc) : 1 <= Py.int x <-> (1 <= x)%Qc.
Proof.
  destruct x as [[n d] Hc]. unfold Qcle, Qle, Py.int. simpl.
  rewrite Z.mul_1_r, Z.mul_1_l. split; intros H.
  - destruct (Z.lt_ge_cases n (Z.pos d)) as [Hlt|]; [|done].
    destruct (Z.lt_ge_cases n 0).
    + pose proof (Z.quot_opp_l (-n) (Z.pos d) ltac:(lia)) as Hq.
      rewrite Z.opp_involutive in Hq.
      pose proof (Z.quot_pos (-n) (Z.pos d) ltac:(lia) ltac:(lia)). lia.
    + rewrite Z.quot_small in H; lia.
  - apply Z.quot_le_lower_bound; lia.
Qed.

Lemma mod_period (x m : Qc) : m <> 0%Qc -> Py.mod_ (x + m) m = Py.mod_ x m.
Proof.
  intros Hm. unfold Py.mod_.
  replace ((x + m) / m)%Qc with (x / m + Py.of_int 1)%Qc by (change (Py.of_int 1) with 1%Qc; field; done).
  rewrite floor_add_int, of_int_add. change (Py.of_int 1) with 1%Qc. ring.
Qed.

Lemma int_nonpos (x : Qc) : (x <= 0)%Qc -> Py.int x <= 0.
Proof.
  destruct x as [[n d] Hc]. unfold Qcle, Qle, Py.int. simpl. intros H.
  assert (n <= 0) as Hn by lia.
  pose proof (Z.quot_opp_l (- n) (Z.pos d) ltac:(lia)) as Hq.
  rewrite Z.opp_involutive in Hq.
  pose proof (Z.quot_pos (- n) (Z.pos d) ltac:(lia) ltac:(lia)). lia.
Qed.

Lemma floor_nonneg (x : Qc) : (0 <= x)%Qc -> 0 <= Py.floor x.
Proof.
  intros Hx. pose proof (floor_lt x) as Hu.
  assert (Py.of_int 0 < Py.of_int (Py.floor x + 1))%Qc as Hz
    by (eapply Qcle_lt_trans; eauto).
  apply (proj1 (of_int_lt _ _)) in Hz. lia.
Qed.

Ltac qc_to_q :=
  unfold Qcle, Qclt in *; cbn [this Qcplus Qcminus Qcmult Qcopp Q2Qc] in *;
  rewrite ?Qred_correct in *.

Lemma int_of_int (z : Z) : Py.int (Py.of_int z) = z.
Proof.
  destruct (Z.le_gt_cases 0 z) as [Hz|Hz].
  - rewrite int_floor_nonneg by (by apply (of_int_le 0 z)). apply floor_of_int.
  - pose proof (int_nonpos (Py.of_int z)
                  ltac:(apply (of_int_le z 0); lia)) as Hi.
    unfold Py.int in *. cbn [Py.of_int Q2Qc this] in *.
    rewrite (Qred_identity (inject_Z z)) in *
      by (cbn; rewrite Z.gcd_1_r; reflexivity).
    cbn. apply Z.quot_1_r.
Qed.

Lemma int_nonneg (x : Qc) : (0 <= x)%Qc -> 0 <= Py.int x.
Proof. intros Hx. rewrite int_floor_nonneg by done. by apply floor_nonneg. Qed.

Lemma int_opp (x : Qc) : Py.int (- x)%Qc = - Py.int x.
Proof.
  destruct x as [[n d] Hc]. unfold Py.int. cbn [Qcopp Q2Qc this].
  rewrite (Qred_identity (- (n # d))).
  - cbn. apply Z.quot_opp_l. lia.
  - cbn. rewrite Z.gcd_opp_l. by apply Qred_iff in Hc.
Qed.

Lemma floor_mono (x y : Qc) : (x <= y)%Qc -> Py.floor x <= Py.floor y.
Proof.
  intros Hxy. pose proof (floor_le x) as Hl. pose proof (floor_lt y) as Hu.
  assert (Py.of_int (Py.floor x) < Py.of_int (Py.floor y + 1))%Qc as H.
  { eapply Qcle_lt_trans; [|exact Hu]. eapply Qcle_trans; eauto. }
  apply (proj1 (of_int_lt _ _)) in H. lia.
Qed.

(** [int] never decreases, on either side of 0. *)
Lemma int_mono (x y : Qc) : (x <= y)%Qc -> Py.int x <= Py.int y.
Proof.
  intros Hxy.
  destruct (Qclt_le_dec x 0) as [Hx|Hx]; destruct (Qclt_le_dec y 0) as [Hy|Hy].
  - assert (0 <= - x)%Qc as Hx' by (qc_to_q; lra).
    assert (0 <= - y)%Qc as Hy' by (qc_to_q; lra).
    assert (- y <= - x)%Qc as Hyx by (qc_to_q; lra).
    pose proof (floor_mono _ _ Hyx) as Hf.
    rewrite <- !int_floor_nonneg, !int_opp in Hf by done. lia.
  - pose proof (int_nonpos x (Qclt_le_weak _ _ Hx)).
    pose proof (int_nonneg y Hy). lia.
  - exfalso. apply (Qclt_not_le _ _ Hy). eapply Qcle_trans; eauto.
  - rewrite !int_floor_nonneg by done. by apply floor_mono.
Qed.

Lemma int_small (x : Qc) : (- (1 / 2) <= x)%Qc -> (x <= 1 / 2)%Qc -> Py.int x = 0.
Proof.
  intros Hl Hu. apply int_mono in Hl, Hu.
  change (Py.int (- (1 / 2))%Qc) with 0 in Hl.
  change (Py.int (1 / 2)%Qc) with 0 in Hu. lia.
Qed.

(** * The monad on concrete runs *)

Lemma for_each_modify {S A} (xs : list A) (f : A -> S -> S) (s : S) :
  for_each xs (fun x => modify (f x)) s = (Ok tt, foldl (fun s x => f x s) s xs).
Proof.
  revert s. induction xs as [|x xs IH]; intros s; [done|].
  simpl. unfold mbind, M_bind, modify at 1. apply IH.
Qed.

(** * Outputs: [Led.set] and [Animation.set_all] *)

Lemma set_obj_idemp (p : Qc) (l : Led.t) :
  Led.set_obj p (Led.set_obj p l) = Led.set_obj p l.
Proof. reflexivity. Qed.

Lemma foldl_alter_lookup {A} (f : A -> A) (rs : list nat) (h : list A) (i : nat) :
  (forall x, f (f x) = f x) ->
  foldl (fun h r => alter f r h) h rs !! i
  = (if decide (i ∈ rs) then f else id) <$> h !! i.
Proof.
  intros Hf. revert h. induction rs as [|r rs IH]; intros h; cbn [foldl].
  - destruct (decide (i ∈ [])) as [Hin|]; [by apply not_elem_of_nil in Hin|].
    by destruct (h !! i).
  - rewrite IH. destruct (decide (i = r)) as [->|Hne].
    + rewrite list_lookup_alter_eq.
      destruct (decide (r ∈ r :: rs)) as [_|Hn]; [|by destruct Hn; left].
      destruct (h !! r); [|done].
      destruct (decide (r ∈ rs)); cbn; by rewrite ?Hf.
    + rewrite list_lookup_alter_ne by done.
      destruct (decide (i ∈ rs)) as [Hin|Hnin];
        destruct (decide (i ∈ r :: rs)) as [Hin'|Hnin']; try done.
      * destruct Hnin'. by right.
      * apply elem_of_cons in Hin' as [?|?]; done.
Qed.

Lemma set_all_run (self : Animation.t) (value : Qc) (h : Led.store) :
  Animation.set_all self value h
  = (Ok tt, foldl (fun h r => alter (Led.set_obj (value * Animation.scale_max self)%Qc) r h)
              h (Animation.leds self)).
Proof. unfold Animation.set_all, Led.set. apply for_each_modify. Qed.


(** Claim C3 as the specification words it (clamp first, then scale) fails:
    with value 2 and scale_max 1/2 the channel is driven at its full
    maximum 65535, not at half of it. *)
Lemma set_all_clamp_first_counterexample :
  ~ (forall (self : Animation.t) (value : Qc) (h : Led.store) (r : Led.ref) (l : Led.t),
        r ∈ Animation.leds self -> h !! r = Some l ->
        Led.duty_cycle <$> (Animation.set_all self value h).2 !! r
        = Some (Py.int (Py.of_int (Led._max_duty_cycle l)
                        * (Py.min value 1 * Animation.scale_max self))%Qc)).
Proof.
  intros H.
  specialize (H (Animation.init (OneLed 0%nat) 1%Qc 25 0%Qc (1 / 2)%Qc) (Py.of_int 2)
                [Led.make D5 pwm_freq MAX_DUTY_CYCLE 0] 0%nat
                (Led.make D5 pwm_freq MAX_DUTY_CYCLE 0)).
  specialize (H ltac:(left) eq_refl).
  vm_compute in H. discriminate H.
Qed.

(** * Frames: [Animation.__init__] and [exec] *)

Lemma of_int_eqb_0 (n : Z) : Py.eqb (Py.of_int n) 0%Qc = (n =? 0).
Proof.
  destruct (Z.eqb_spec n 0) as [->|Hn]; [done|].
  apply eqb_neq. intros H. by apply (of_int_inj n 0) in H.
Qed.

Lemma frame_in_animation_period (self : Animation.t) (f : Z) :
  Animation.frame_count self <> 0 ->
  frame_in_animation self (f + Animation.frame_count self) = frame_in_animation self f.
Proof.
  intros H0. unfold frame_in_animation. rewrite of_int_add.
  set (m := Py.of_int (Animation.frame_count self)).
  set (o := (Animation.offset self * Py.of_int (Animation.frame_rate self))%Qc).
  replace (Py.of_int f + m + o)%Qc with ((Py.of_int f + o) + m)%Qc by ring.
  apply mod_period. intros H. by apply (of_int_inj _ 0) in H.
Qed.

Lemma completed_range (self : Animation.t) (f : Z) :
  Animation.frame_count self <> 0 ->
  (0 <= completed self f)%Qc /\ (completed self f < 1)%Qc.
Proof.
  intros H0. unfold completed, frame_in_animation, Py.mod_.
  set (m := Py.of_int (Animation.frame_count self)).
  set (x := (_ + _ * _)%Qc).
  assert (m <> 0%Qc) as Hm by (intros H; by apply (of_int_inj _ 0) in H).
  replace ((x - m * Py.of_int (Py.floor (x / m))) / m)%Qc
    with (x / m - Py.of_int (Py.floor (x / m)))%Qc by (field; done).
  pose proof (floor_le (x / m)%Qc) as Hl. pose proof (floor_lt (x / m)%Qc) as Hu.
  rewrite of_int_add in Hu. change (Py.of_int 1) with 1%Qc in Hu.
  set (k := Py.of_int (Py.floor (x / m))) in *. split.
  - apply (Qcplus_le_mono_r _ _ k). by ring_simplify.
  - apply (Qcplus_lt_mono_r _ _ k). by ring_simplify.
Qed.

Lemma post_bind {S A B} (m : M S A) (k : A -> M S B) (s : S) (Q : B -> S -> Prop) :
  post m s (fun a s' => post (k a) s' Q) -> post (m ≫= k) s Q.
Proof.
  unfold post, mbind, M_bind. by destruct (m s) as [[a|e] s'].
Qed.

Lemma post_all {S A} (m : M S A) (s : S) (Q : A -> S -> Prop) :
  (forall a s', Q a s') -> post m s Q.
Proof. intros H. unfold post. by destruct (m s) as [[a|e] s']. Qed.

Lemma post_ret {S A} (a : A) (s : S) (Q : A -> S -> Prop) :
  Q a s -> post (mret a) s Q.
Proof. done. Qed.

Lemma bind_run {S A B} (m : M S A) (k : A -> M S B) (s : S) :
  (m ≫= k) s = match m s with
               | (Ok a, s') => k a s'
               | (Raise e, s') => (Raise e, s')
               end.
Proof. reflexivity. Qed.

Ltac post_steps :=
  repeat match goal with
         | |- post (mret _) _ _ => apply post_ret
         | |- post (_ ≫= _) _ _ => apply post_bind; apply post_all; intros ? ?
         | |- post (if ?b then _ else _) _ _ => destruct b
         end.

Lemma RandomGlitch_init_frame_count leds d fr off sm gd g :
  post (RandomGlitch.init leds d fr off sm gd) g
    (fun self _ => Animation.frame_count self = Py.int (d * Py.of_int fr)%Qc).
Proof. unfold RandomGlitch.init, RandomGlitch.check. post_steps; done. Qed.

Section Frames.

Variable math : Math.

Lemma exec_zero (self : Animation.t) (f : Z) (h : Led.store) :
  Animation.frame_count self = 0 ->
  exec math self f h = (Raise ZeroDivisionError, h).
Proof.
  intros H0. unfold exec, py_mod. by rewrite of_int_eqb_0, H0.
Qed.

Lemma exec_nonzero (self : Animation.t) (f : Z) (h : Led.store) :
  Animation.frame_count self <> 0 ->
  exec math self f h
  = render math self (frame_in_animation self f) (completed self f) h.
Proof.
  intros H0. apply Z.eqb_neq in H0.
  unfold exec, py_mod, py_div. rewrite of_int_eqb_0, H0. reflexivity.
Qed.

Lemma exec_period (self : Animation.t) (f : Z) (h : Led.store) :
  exec math self (f + Animation.frame_count self) h = exec math self f h.
Proof.
  destruct (decide (Animation.frame_count self = 0)) as [H0|H0].
  - by rewrite !exec_zero.
  - rewrite !exec_nonzero by done. unfold completed.
    by rewrite frame_in_animation_period.
Qed.

Lemma render_frame_count self fia c h :
  post (render math self fia c) h
    (fun self' _ => Animation.frame_count self' = Animation.frame_count self).
Proof.
  unfold render, Sine.render, FlashAndDecay.render, RandomGlitch.render,
    Blink.render, Static.render.
  destruct (Animation.variant self) as [| | |gd gv fpg| |pct [|]]; simpl;
    post_steps; done.
Qed.

Lemma render_stateless self fia c h :
  is_static (Animation.variant self) = false ->
  post (render math self fia c) h (fun self' _ => self' = self).
Proof.
  unfold render, Sine.render, FlashAndDecay.render, RandomGlitch.render,
    Blink.render, Static.render.
  destruct (Animation.variant self) as [| | |gd gv fpg| |pct [|]]; simpl; intros Hs;
    post_steps; done.
Qed.

Lemma exec_post self f h (Q : Animation.t -> Led.store -> Prop) :
  (forall fia c, post (render math self fia c) h Q) ->
  post (exec math self f) h Q.
Proof.
  intros H. destruct (decide (Animation.frame_count self = 0)) as [H0|H0].
  - unfold post. by rewrite exec_zero.
  - unfold post. rewrite exec_nonzero by done. apply H.
Qed.

Lemma exec_frame_count self f h :
  post (exec math self f) h
    (fun self' _ => Animation.frame_count self' = Animation.frame_count self).
Proof. apply exec_post. intros. apply render_frame_count. Qed.

Lemma exec_stateless self f h :
  is_static (Animation.variant self) = false ->
  post (exec math self f) h (fun self' _ => self' = self).
Proof. intros Hs. apply exec_post. intros. by apply render_stateless. Qed.

(** Claim C4, as the source has it: [frame_count] is
    [int(duration * frame_rate)], the floating-point product cut toward
    zero, and no constructor checks it.  With the frame rate and the
    product inside the range that floats hold exactly, it is the product
    itself when that is a whole number, and within one of its truncation
    otherwise; it is at least 1 when the product is, and it is 0 when the
    product is at most 1/2 in size.  Every subclass constructor keeps it and
    no [exec] changes it. *)
Theorem frame_count_is_truncated_product
    (leds : LedsArg) (duration : Qc) (frame_rate : Z) (offset scale_max : Qc) :
  let self := Animation.init leds duration frame_rate offset scale_max in
  let product := (duration * Py.of_int frame_rate)%Qc in
  (Z.abs frame_rate <= exact_int ->
   (Py.of_int (- exact_int) <= product)%Qc ->
   (product <= Py.of_int exact_int)%Qc ->
   (forall n : Z, product = Py.of_int n -> Animation.frame_count self = n) /\
   Z.abs (Animation.frame_count self - Py.int product) <= 1 /\
   ((1 <= product)%Qc -> 1 <= Animation.frame_count self) /\
   ((- (1 / 2) <= product)%Qc -> (product <= 1 / 2)%Qc ->
    Animation.frame_count self = 0)) /\
  Animation.frame_count (Sine.init leds duration frame_rate offset scale_max)
    = Animation.frame_count self /\
  Animation.frame_count (FlashAndDecay.init leds duration frame_rate offset scale_max)
    = Animation.frame_count self /\
  Animation.frame_count (Blink.init leds duration frame_rate offset scale_max)
    = Animation.frame_count self /\
  (forall pct,
      Animation.frame_count (Static.init pct leds duration frame_rate offset scale_max)
      = Animation.frame_count self) /\
  (forall gd g,
      post (RandomGlitch.init leds duration frame_rate offset scale_max gd) g
        (fun a _ => Animation.frame_count a = Animation.frame_count self)) /\
  (forall (a : Animation.t) (f : Z) (h : Led.store),
      post (exec math a f) h
        (fun a' _ => Animation.frame_count a' = Animation.frame_count a)).
Proof.
  cbv zeta. cbn [Animation.init Animation.frame_count].
  split_and!; try done.
  - intros _ _ _. split_and!.
    + intros n ->. apply int_of_int.
    + lia.
    + apply int_ge_1.
    + apply int_small.
  - intros. apply RandomGlitch_init_frame_count.
  - intros. apply exec_frame_count.
Qed.

(** Claim C4 as the specification words it fails: with duration 1/2 and
    frame rate 1 the frame count is 0, neither the product 1/2 nor at
    least 1. *)
Lemma frame_count_counterexample :
  ~ (forall (leds : LedsArg) (duration : Qc) (frame_rate : Z) (offset scale_max : Qc),
        let self := Animation.init leds duration frame_rate offset scale_max in
        Py.of_int (Animation.frame_count self) = (duration * Py.of_int frame_rate)%Qc
        /\ 1 <= Animation.frame_count self).
Proof.
  intros H.
  destruct (H (LedList []) (1 / 2)%Qc 1 0%Qc 1%Qc) as [_ H1].
  vm_compute in H1. by apply H1.
Qed.

(** Claim C9: the blink animation hands [set_all] exactly 0 when the
    completed fraction lies in [0, 1/2] and exactly 1 when it lies in
    (1/2, 1); and at every frame [exec] renders a blink at a completed
    fraction in [0, 1). *)
Theorem blink_is_binary :
  (forall (self : Animation.t) (fia c : Qc),
      (0 <= c)%Qc -> (c <= 1 / 2)%Qc ->
      Blink.render self fia c = (Animation.set_all self 0%Qc;; mret self)) /\
  (forall (self : Animation.t) (fia c : Qc),
      (1 / 2 < c)%Qc -> (c < 1)%Qc ->
      Blink.render self fia c = (Animation.set_all self 1%Qc;; mret self)) /\
  (forall (self : Animation.t) (f : Z) (h : Led.store),
      Animation.variant self = Blink ->
      Animation.frame_count self <> 0 ->
      let c := completed self f in
      ((0 <= c)%Qc /\ (c < 1)%Qc) /\
      exec math self f h = Blink.render self (frame_in_animation self f) c h).
Proof.
  split; [|split].
  - intros self fia c _ Hc. unfold Blink.render. by apply leb_le in Hc as ->.
  - intros self fia c Hc _. unfold Blink.render. by apply leb_gt in Hc as ->.
  - intros self f h Hv H0 c. split; [by apply completed_range|].
    rewrite exec_nonzero by done. unfold render. by rewrite Hv.
Qed.

Lemma static_exec_first self pct f h :
  Animation.variant self = Static pct false ->
  Animation.frame_count self <> 0 ->
  exec math self f h
  = (Ok (Animation.with_variant (Static pct true) self),
     (Animation.set_all self pct h).2).
Proof.
  intros Hv H0. rewrite exec_nonzero by done. unfold render. rewrite Hv.
  unfold Static.render. simpl. rewrite bind_run, set_all_run. done.
Qed.

Lemma static_exec_later self pct f h :
  Animation.variant self = Static pct true ->
  Animation.frame_count self <> 0 ->
  exec math self f h = (Ok self, h).
Proof.
  intros Hv H0. rewrite exec_nonzero by done. unfold render. by rewrite Hv.
Qed.

Lemma static_exec_frames_later self pct frames h :
  Animation.variant self = Static pct true ->
  Animation.frame_count self <> 0 ->
  exec_frames math self frames h = (Ok self, h).
Proof.
  intros Hv H0. induction frames as [|f frames IH]; [done|].
  simpl. rewrite bind_run, (static_exec_later _ pct) by done. apply IH.
Qed.

(** X15: a static hold whose [frame_count] is not 0 writes its intensity
    on the first [exec] only, whatever the frame: the first call does what
    one [set_all(pct)] does and marks the object, every later call returns
    without touching a channel, and any non-empty sequence of calls leaves
    the channels as that one [set_all(pct)] does. *)
Theorem static_hold_writes_once (self : Animation.t) (pct : Qc) (h : Led.store) :
  Animation.variant self = Static pct false ->
  Animation.frame_count self <> 0 ->
  let self' := Animation.with_variant (Static pct true) self in
  (forall f, exec math self f h = (Ok self', (Animation.set_all self pct h).2)) /\
  (forall f k, exec math self' f k = (Ok self', k)) /\
  (forall f frames,
      exec_frames math self (f :: frames) h
      = (Ok self', (Animation.set_all self pct h).2)).
Proof.
  intros Hv H0 self'. split; [|split].
  - intros. by apply static_exec_first.
  - intros. by apply (static_exec_later _ pct).
  - intros. simpl. rewrite bind_run, (static_exec_first _ pct) by done.
    by apply (static_exec_frames_later _ pct).
Qed.

(** X16: an animation whose offset is a whole number of half frames, as
    are all those of the program's table, repeats with period
    [frame_count]: with the frame, the offset in half frames, the frame
    rate and a non-zero [frame_count] of at most [exact_int] in size (so
    that the frame arithmetic of [exec] is exact in floating point too),
    [exec(f + frame_count)] does from any state what [exec(f)] does from
    it; and every variant but the static hold comes back unchanged. *)
Theorem exec_periodic_on_half_frames (a : Animation.t) (f k : Z) (h : Led.store) :
  (Animation.offset a * Py.of_int (Animation.frame_rate a)
   = Py.of_int k / Py.of_int 2)%Qc ->
  Z.abs k <= exact_int ->
  Z.abs (Animation.frame_rate a) <= exact_int ->
  Z.abs f <= exact_int ->
  0 < Z.abs (Animation.frame_count a) <= exact_int ->
  exec math a (f + Animation.frame_count a) h = exec math a f h /\
  (is_static (Animation.variant a) = false ->
   post (exec math a f) h (fun a' _ => a' = a)).
Proof.
  intros _ _ _ _ _. split; [apply exec_period|]. apply exec_stateless.
Qed.

End Frames.

(** * Construction of the randomized flicker *)


Lemma draw_values_run (n : nat) (acc : list Qc) (g : Rng) :
  exists (vs : list Qc) (g' : Rng),
    RandomGlitch.draw_values n acc g = (Ok vs, g') /\
    length vs = (length acc + n)%nat.
Proof.
  revert acc g. induction n as [|n IH]; intros acc g; simpl.
  - exists acc, g. split; [done | lia].
  - rewrite bind_run. unfold random_uniform at 1.
    destruct (IH (acc ++ [g 0%nat]) (fun n => g (S n))) as (vs & g' & -> & Hl).
    exists vs, g'. split; [done|]. rewrite length_app in Hl. simpl in Hl. lia.
Qed.

Lemma floor_div_of_int (a b : Z) :
  0 < b -> Py.floor (Py.of_int a / Py.of_int b)%Qc = a / b.
Proof.
  intros Hb. unfold Py.floor.
  assert (this (Py.of_int a / Py.of_int b)%Qc == inject_Z a / inject_Z b)%Q as ->.
  { simpl. rewrite !Qred_correct. reflexivity. }
  symmetry. apply Zdiv_Qdiv.
Qed.

Lemma RandomGlitch_init_run leds d fr off sm gd (g : Rng) :
  let gd' := if Py.eqb gd 0%Qc then (d / Py.of_int 10)%Qc else gd in
  exists (r : outcome Animation.t) (g' : Rng),
    RandomGlitch.init leds d fr off sm gd g = (r, g') /\
    init_result d gd' (Animation.init leds d fr off sm) r.
Proof.
  intros gd'. unfold RandomGlitch.init, RandomGlitch.check. fold gd'.
  set (self := Animation.init leds d fr off sm).
  rewrite bind_run. unfold py_div at 1.
  destruct (Py.eqb gd' 0%Qc) eqn:Hgd.
  { do 2 eexists. split; [done|]. apply init_no_duration. by apply eqb_eq. }
  apply eqb_neq in Hgd. cbn [mret M_ret].
  rewrite bind_run.
  destruct (draw_values_run (Z.to_nat (Py.int (d / gd')%Qc)) [] g)
    as (vs & g' & -> & Hlen).
  simpl in Hlen.
  rewrite bind_run. unfold py_modZ.
  destruct (Z.eqb_spec (Z.of_nat (length vs)) 0) as [H0|H0].
  { do 2 eexists. split; [done|]. apply init_no_segment; [done|]. lia. }
  assert (Z.of_nat (length vs) = Py.int (d / gd')%Qc) as Hk by lia.
  cbn [mret M_ret]. rewrite Hk.
  destruct (Z.eqb_spec (Animation.frame_count self mod Py.int (d / gd')%Qc) 0)
    as [Hm|Hm]; cbn [negb].
  - rewrite bind_run. unfold py_div. rewrite of_int_eqb_0.
    destruct (Z.eqb_spec (Py.int (d / gd')%Qc) 0) as [?|_]; [lia|].
    cbn [mret M_ret]. rewrite floor_div_of_int by lia.
    do 2 eexists. split; [done|]. apply init_ok; [done|lia|done|done].
  - do 2 eexists. split; [done|]. apply init_not_divisible; [done|lia|done].
Qed.

Lemma Qcdiv_0_r (x : Qc) : (x / 0)%Qc = 0%Qc.
Proof. unfold Qcdiv. replace (/ 0)%Qc with 0%Qc by (by apply Qc_is_canon). ring. Qed.

Lemma int_pos_floor (x : Qc) : 0 < Py.int x -> Py.int x = Py.floor x.
Proof.
  intros H. apply int_floor_nonneg.
  destruct (Qclt_le_dec x 0) as [Hlt|Hle]; [|done].
  pose proof (int_nonpos x (Qclt_le_weak _ _ Hlt)). lia.
Qed.

Lemma int_nonpos_floor (x : Qc) : Py.int x <= 0 -> Py.floor x <= 0.
Proof.
  intros H. destruct (Qclt_le_dec x 0) as [Hlt|Hle].
  - pose proof (floor_le x) as Hf.
    assert (Py.of_int (Py.floor x) < Py.of_int 0)%Qc as Hz
      by (eapply Qcle_lt_trans; eauto).
    apply (proj1 (of_int_lt _ _)) in Hz. lia.
  - by rewrite <- int_floor_nonneg.
Qed.



(** * Scene rotation *)

Lemma mod_range (x m : Qc) :
  (0 < m)%Qc -> (0 <= Py.mod_ x m)%Qc /\ (Py.mod_ x m < m)%Qc.
Proof.
  intros Hm. assert (m <> 0%Qc) as Hm0 by (by apply Qclt_not_eq, not_eq_sym in Hm).
  unfold Py.mod_.
  pose proof (floor_le (x / m)%Qc) as Hl. pose proof (floor_lt (x / m)%Qc) as Hu.
  rewrite of_int_add in Hu. change (Py.of_int 1) with 1%Qc in Hu.
  set (k := Py.of_int (Py.floor (x / m))) in *.
  apply (Qcmult_le_mono_pos_l _ _ m Hm) in Hl.
  apply (Qcmult_lt_mono_pos_l _ _ m Hm) in Hu.
  rewrite Qcmult_div_r in Hl, Hu by done. split.
  - apply (Qcplus_le_mono_r _ _ (m * k)). by ring_simplify.
  - apply (Qcplus_lt_mono_r _ _ (m * k)).
    replace (x - m * k + m * k)%Qc with x by ring.
    by replace (m + m * k)%Qc with (m * (k + 1))%Qc by ring.
Qed.


(** [int(elapsed % switch_every) == 0] is [floor(elapsed) mod switch_every == 0]
    for a positive integer interval. *)
Lemma int_mod_zero (e : Qc) (sw : Z) :
  0 < sw ->
  (Py.int (Py.mod_ e (Py.of_int sw)) =? 0) = (Py.floor e mod sw =? 0).
Proof.
  intros Hsw.
  assert (0 < Py.of_int sw)%Qc as Hm by (by apply (of_int_lt 0 sw)).
  destruct (mod_range e _ Hm) as [Hr0 Hr1].
  rewrite int_floor_nonneg by done.
  set (r := Py.mod_ e (Py.of_int sw)) in *.
  set (q := Py.floor (e / Py.of_int sw)%Qc).
  assert (e = r + Py.of_int (q * sw))%Qc as He.
  { unfold r, Py.mod_. fold q. rewrite of_int_mul. ring. }
  assert (0 <= Py.floor r < sw) as Hfr.
  { split; [by apply floor_nonneg|].
    pose proof (floor_le r) as Hl.
    assert (Py.of_int (Py.floor r) < Py.of_int sw)%Qc as Hz
      by (eapply Qcle_lt_trans; eauto).
    by apply (proj1 (of_int_lt _ _)) in Hz. }
  replace (Py.floor e) with (Py.floor r + q * sw)
    by (by rewrite <- floor_add_int, <- He).
  rewrite Z.mod_add by lia. by rewrite Z.mod_small.
Qed.

Lemma elapsed_run (app : App.t) (w : World) :
  App.elapsed (app, w) = (Ok (elapsed_at app w), (app, w)).
Proof. reflexivity. Qed.

(** Indexing does not touch the state. *)
Lemma py_index_run {A S} (l : list A) (i : Z) (s : S) :
  py_index l i s = ((py_index l i tt).1, s).
Proof.
  unfold py_index.
  destruct (_ || _); [done|]. by destruct (l !! _).
Qed.

Lemma py_index_in_range {A S} (l : list A) (i : Z) (s : S) :
  0 <= i < Z.of_nat (length l) -> exists x, py_index l i s = (Ok x, s).
Proof.
  intros Hi. unfold py_index.
  destruct (Z.ltb_spec i 0); [lia|].
  destruct (Z.ltb_spec i 0); [lia|].
  destruct (Z.leb_spec (Z.of_nat (length l)) i); [lia|]. cbn [orb].
  destruct (lookup_lt_is_Some_2 l (Z.to_nat i) ltac:(lia)) as [x ->]. by exists x.
Qed.

(** The run of one rotation task. *)
Lemma update_animation_set_run (app : App.t) (w : World) :
  App.switch_every app <> 0 ->
  App.update_animation_set (app, w)
  = if Py.leb (elapsed_at app w) (Py.of_int 2) then (Ok tt, (app, w))
    else if rotation_due app (elapsed_at app w) then
      let app' := App.with_current_animation (next_animation app) app in
      match (py_index (App.animations app) (next_animation app) tt).1 with
      | Ok scene =>
          (Ok tt,
           (app',
            set_stdout
              (stdout w ++
               [out_animation (next_animation app)
                  (foldl (fun names clz => names ∪ {[class_name (Animation.variant clz)]})
                     (∅ : gset string) scene)]) w))
      | Raise e => (Raise e, (app', w))
      end
    else (Ok tt, (app, w)).
Proof.
  intros Hsw. unfold App.update_animation_set, rotation_due.
  rewrite bind_run, elapsed_run.
  destruct (Py.leb (elapsed_at app w) (Py.of_int 2)) eqn:He; [done|].
  rewrite bind_run. cbn [App.self fst snd]. rewrite bind_run.
  assert (
    (if App.current_animation app =? 0 then mret true
     else e ← App.elapsed;
          m ← py_mod e (Py.of_int (App.switch_every app));
          mret (Py.int m =? 0)) (app, w)
    = (Ok ((App.current_animation app =? 0)
           || (Py.int (Py.mod_ (elapsed_at app w)
                         (Py.of_int (App.switch_every app))) =? 0)), (app, w))) as ->.
  { destruct (App.current_animation app =? 0); [done|].
    rewrite bind_run, elapsed_run, bind_run. unfold py_mod. rewrite of_int_eqb_0.
    by destruct (Z.eqb_spec (App.switch_every app) 0). }
  destruct (_ || _); [|done].
  rewrite bind_run. cbn [App.update_self modify fst snd].
  rewrite bind_run. cbn [App.self fst snd]. rewrite bind_run.
  unfold next_animation.
  cbn [App.with_current_animation App.animations App.current_animation].
  destruct (_ <=? _); cbn [App.update_self modify mret M_ret fst snd];
    rewrite bind_run; cbn [App.self fst snd]; rewrite bind_run;
    cbn [App.with_current_animation App.animations App.current_animation];
    rewrite py_index_run; cbn [fst snd];
    by destruct (py_index _ _ tt).1.
Qed.

Lemma update_animation_set_self (app : App.t) (w : World) :
  App.switch_every app <> 0 ->
  (App.update_animation_set (app, w)).2.1
  = if Py.leb (elapsed_at app w) (Py.of_int 2) then app
    else if rotation_due app (elapsed_at app w)
         then App.with_current_animation (next_animation app) app
         else app.
Proof.
  intros Hsw. rewrite update_animation_set_run by done.
  destruct (Py.leb _ _); [done|]. destruct (rotation_due _ _); [|done].
  cbv zeta. by destruct (py_index _ _ _).1.
Qed.

(** The rotation returns normally whenever the index it moves to is inside
    the table. *)
Lemma update_animation_set_ok (app : App.t) (w : World) :
  App.switch_every app <> 0 ->
  0 <= next_animation app < Z.of_nat (length (App.animations app)) ->
  (App.update_animation_set (app, w)).1 = Ok tt.
Proof.
  intros Hsw Hnext. rewrite update_animation_set_run by done.
  destruct (Py.leb _ _); [done|]. destruct (rotation_due _ _); [|done].
  cbv zeta.
  by destruct (py_index_in_range (App.animations app) _ tt Hnext) as [scene ->].
Qed.

(** Claim C6: one invocation of the rotation task, at elapsed time [e]:
    unchanged when [e <= 2]; otherwise, when the index is 0 or
    [floor(e) mod switch_every = 0], the index moves to the next one, which
    is 1 when the next one would reach the length of the table; unchanged in
    all other cases.  The rest of the object is never touched. *)
Theorem scene_rotation_rule (app : App.t) (w : World) :
  0 < App.switch_every app ->
  let e := elapsed_at app w in
  let n := Z.of_nat (length (App.animations app)) in
  let current := App.current_animation app in
  let app' := (App.update_animation_set (app, w)).2.1 in
  App.elapsed (app, w) = (Ok e, (app, w)) /\
  ((e <= Py.of_int 2)%Qc -> App.current_animation app' = current) /\
  ((Py.of_int 2 < e)%Qc ->
   current = 0 \/ Py.floor e mod App.switch_every app = 0 ->
   App.current_animation app' = if decide (current + 1 < n) then current + 1 else 1) /\
  ((Py.of_int 2 < e)%Qc ->
   current <> 0 -> Py.floor e mod App.switch_every app <> 0 ->
   App.current_animation app' = current) /\
  App.animations app' = App.animations app /\
  App.switch_every app' = App.switch_every app /\
  App.start app' = App.start app.
Proof.
  intros Hsw e n current app'.
  assert (app' =
    if Py.leb e (Py.of_int 2) then app
    else if (current =? 0) || (Py.floor e mod App.switch_every app =? 0)
         then App.with_current_animation (next_animation app) app
         else app) as Happ.
  { unfold app'. rewrite update_animation_set_self by lia.
    unfold rotation_due. by rewrite int_mod_zero. }
  split; [done|]. rewrite Happ. split_and!.
  - intros He. by apply leb_le in He as ->.
  - intros He Hdue. apply leb_gt in He as ->.
    assert ((current =? 0) || (Py.floor e mod App.switch_every app =? 0) = true) as ->.
    { apply orb_true_iff. destruct Hdue; [left|right]; by apply Z.eqb_eq. }
    cbn [App.with_current_animation App.current_animation]. unfold next_animation.
    fold n current. destruct (Z.leb_spec n (current + 1)); case_decide; lia.
  - intros He Hc Hm. apply leb_gt in He as ->.
    apply Z.eqb_neq in Hc as ->. by apply Z.eqb_neq in Hm as ->.
  - by repeat destruct (_ : bool).
  - by repeat destruct (_ : bool).
  - by repeat destruct (_ : bool).
Qed.

(** * Startup *)

Lemma init_body_run (w : World) :
  hw w = [] ->
  exists (app : App.t) (g' : Rng),
    App.init_body 25 w = (Ok app, set_rng g' (set_hw boot_leds w)) /\
    App.leds app = [0; 1; 2; 3]%nat /\
    App.current_animation app = 0 /\
    App.switch_every app = 15 /\
    App.frame_rate app = 25 /\
    length (App.animations app) = 6%nat.
Proof.
  destruct w as [h u ro f g t v c o l r s]. simpl. intros ->.
  vm_compute. do 2 eexists. split; [reflexivity|]. done.
Qed.

Lemma world_run {A} (m : M World A) (app : App.t) (w : World) :
  App.world m (app, w) = ((m w).1, (app, (m w).2)).
Proof. unfold App.world, zoom. simpl. by destruct (m w). Qed.

Lemma is_usb_connected_run (w : World) :
  is_usb_connected w
  = (Ok (usb w), if usb w then w else set_fs_readonly true w).
Proof. destruct w as [h [|] ro f g t v c o l r s]; reflexivity. Qed.

Lemma set_state_run (state : string) (w : World) :
  App.set_state state w
  = (Ok tt,
     if usb w then w
     else set_fs_readonly true (set_files (<[state_file := state]> (files w)) w)).
Proof. destruct w as [h [|] ro f g t v c o l r s]; reflexivity. Qed.

Lemma get_last_state_run (w : World) :
  App.get_last_state w
  = (Ok (match files w !! state_file with
         | Some s => strip s
         | None => STATE_UNKNOWN
         end), w).
Proof.
  unfold App.get_last_state, try_except, read_file. rewrite bind_run.
  by destruct (files w !! state_file).
Qed.

Lemma init_state_file_run (w : World) :
  App.init_state_file w
  = (Ok tt,
     match files w !! state_file with
     | Some _ => w
     | None => (App.set_state STATE_ACTIVE w).2
     end).
Proof.
  unfold App.init_state_file, try_except, os_stat.
  destruct (files w !! state_file); [done|].
  rewrite decide_True by done. by rewrite set_state_run.
Qed.

Lemma init_run (w : World) :
  hw w = [] ->
  exists (app : App.t) (g' : Rng),
    App.init 25 w = (Ok app, set_rng g' (set_hw boot_leds (after_state_init w))) /\
    App.leds app = [0; 1; 2; 3]%nat /\
    App.current_animation app = 0 /\
    App.switch_every app = 15 /\
    App.frame_rate app = 25 /\
    length (App.animations app) = 6%nat.
Proof.
  intros Hhw. unfold App.init. rewrite bind_run, is_usb_connected_run.
  assert (hw (after_state_init w) = []) as Hhw'.
  { unfold after_state_init. destruct w as [h u ro f g t v c o l r s].
    simpl in *. destruct u; [done|]. by destruct (f !! state_file). }
  destruct (init_body_run _ Hhw') as (app & g' & Hrun & Hprops).
  exists app, g'. split; [|done]. rewrite <- Hrun. unfold after_state_init.
  destruct (usb w) eqn:Hu; cbn [negb]; rewrite bind_run; [done|].
  rewrite init_state_file_run.
  destruct w as [h u ro f g t v c o l r s]. simpl in *. subst u.
  by destruct (f !! state_file).
Qed.

Lemma print_run (o : Output) (w : World) :
  print o w = (Ok tt, set_stdout (stdout w ++ [o]) w).
Proof. reflexivity. Qed.

Lemma blank_run (leds : list Led.ref) (w : World) :
  App.blank leds w
  = (Ok tt, set_hw (foldl (fun h r => alter Led.off_obj r h) (hw w) leds) w).
Proof.
  unfold App.blank, on_hw, zoom, Led.off. by rewrite for_each_modify.
Qed.

Lemma halt_run {A} (app : App.t) (w : World) :
  App.halt (A := A) (app, w)
  = (Raise HaltException,
     (app,
      (App.blank (App.leds app)
         (App.set_state STATE_SLEEP (print out_going_to_sleep w).2).2).2)).
Proof.
  unfold App.halt.
  rewrite bind_run, world_run, print_run. cbn [fst snd].
  rewrite bind_run, world_run, set_state_run. cbn [fst snd].
  rewrite bind_run. cbn [App.self fst snd].
  rewrite bind_run, world_run, blank_run. cbn [fst snd]. reflexivity.
Qed.

Ltac wsimpl :=
  cbn [fst snd hw usb fs_readonly files rng monotonic_ns vbat_value cpu_temperature
       stdout loop_tasks loop_running sleeping
       set_hw set_fs_readonly set_files set_rng set_monotonic_ns set_stdout
       set_loop_tasks set_loop_running set_sleeping].

Ltac wsimpl_in H :=
  cbn [fst snd hw usb fs_readonly files rng monotonic_ns vbat_value cpu_temperature
       stdout loop_tasks loop_running sleeping
       set_hw set_fs_readonly set_files set_rng set_monotonic_ns set_stdout
       set_loop_tasks set_loop_running set_sleeping] in H.

Ltac world_step lem :=
  rewrite bind_run, world_run, lem; wsimpl.

Lemma run_halts (run_for : Z) (app : App.t) (w : World) (s : string) :
  usb w = false ->
  files w !! state_file = Some s ->
  strip s = STATE_ACTIVE ->
  App.run run_for (app, w)
  = (Raise HaltException,
     (app,
      set_hw (foldl (fun h r => alter Led.off_obj r h) (hw w) (App.leds app))
        (set_fs_readonly true
           (set_files (<[state_file := STATE_SLEEP]> (files w))
              (set_stdout
                 (stdout w ++ [out_fancy_title; out_last_state STATE_ACTIVE;
                               out_going_to_sleep]) w))))).
Proof.
  destruct w as [h u ro f g t v c o l r z]. wsimpl. intros -> Hf Hs.
  unfold App.run.
  world_step print_run.
  world_step get_last_state_run. rewrite Hf, Hs.
  world_step print_run.
  world_step get_last_state_run. rewrite Hf, Hs.
  rewrite bind_run. cbn [String.eqb Ascii.eqb Bool.eqb STATE_ACTIVE andb].
  world_step is_usb_connected_run. cbn [negb].
  rewrite halt_run, print_run. wsimpl. rewrite set_state_run. wsimpl.
  rewrite blank_run. wsimpl. by rewrite <- !app_assoc.
Qed.

Lemma loop_schedule_run (c : Cadence) (co : Coroutine) (w : World) :
  App.loop_schedule c co w = (Ok tt, set_loop_tasks (loop_tasks w ++ [(c, co)]) w).
Proof. reflexivity. Qed.

Lemma run_unknown (run_for : Z) (app : App.t) (w : World) :
  files w !! state_file = None ->
  App.run run_for (app, w)
  = (Ok tt,
     (App.with_start (monotonic_ns w) app,
      set_loop_running true
        (set_loop_tasks (loop_tasks w ++ scheduled (App.frame_rate app) run_for)
           (set_stdout
              (stdout w ++ [out_fancy_title; out_last_state STATE_UNKNOWN]) w)))).
Proof.
  destruct w as [h u ro f g t v c o l r z]. wsimpl. intros Hf.
  unfold App.run.
  world_step print_run.
  world_step get_last_state_run. rewrite Hf.
  world_step print_run.
  world_step get_last_state_run. rewrite Hf.
  rewrite bind_run.
  cbn [String.eqb Ascii.eqb Bool.eqb STATE_ACTIVE STATE_UNKNOWN andb mret M_ret].
  world_step get_last_state_run. rewrite Hf.
  rewrite bind_run.
  cbn [String.eqb Ascii.eqb Bool.eqb STATE_SLEEP STATE_UNKNOWN andb mret M_ret].
  rewrite bind_run. cbn [App.self fst snd].
  do 4 world_step loop_schedule_run.
  rewrite bind_run, world_run. wsimpl.
  rewrite bind_run. cbn [App.update_self modify fst snd].
  rewrite world_run. unfold App.loop_run, modify. wsimpl.
  unfold scheduled. by rewrite <- !app_assoc.
Qed.

(** * The scene index stays inside the table *)

Lemma next_animation_range (app : App.t) :
  index_ok app ->
  1 <= next_animation app < Z.of_nat (length (App.animations app)).
Proof.
  intros (_ & Hn & Hc). unfold next_animation.
  destruct (_ <=? _) eqn:E; [lia|]. apply Z.leb_gt in E. lia.
Qed.

Lemma tick_step (now : Z) (app : App.t) (w : World) :
  index_ok app ->
  exists (app' : App.t) (w' : World),
    tick now (app, w) = (Ok tt, (app', w')) /\
    index_ok app' /\
    App.animations app' = App.animations app /\
    (App.current_animation app <> 0 -> App.current_animation app' <> 0).
Proof.
  intros Hok. pose proof Hok as (Hsw & Hn & Hc).
  pose proof (next_animation_range app Hok) as Hnext.
  unfold tick. rewrite bind_run, world_run. cbn [modify fst snd].
  set (w1 := set_monotonic_ns now w).
  pose proof (update_animation_set_ok app w1 ltac:(lia) ltac:(lia)) as Hr.
  pose proof (update_animation_set_self app w1 ltac:(lia)) as Hs.
  destruct (App.update_animation_set (app, w1)) as [r [app' w']].
  cbn [fst snd] in Hr, Hs. subst r. exists app', w'. split; [done|].
  rewrite Hs. destruct (Py.leb _ _); [done|]. destruct (rotation_due _ _); [|done].
  unfold index_ok.
  cbn [App.with_current_animation App.animations App.current_animation
       App.switch_every]. repeat split; try lia.
Qed.

Lemma ticks_run (clock : list Z) (app : App.t) (w : World) :
  index_ok app ->
  exists (app' : App.t) (w' : World),
    for_each clock tick (app, w) = (Ok tt, (app', w')) /\
    index_ok app' /\
    App.animations app' = App.animations app /\
    (App.current_animation app <> 0 -> App.current_animation app' <> 0).
Proof.
  revert app w. induction clock as [|now clock IH]; intros app w Hok.
  - by exists app, w.
  - destruct (tick_step now app w Hok) as (app1 & w1 & Hrun & Hok1 & Han1 & Hnz1).
    destruct (IH app1 w1 Hok1) as (app2 & w2 & Hrun2 & Hok2 & Han2 & Hnz2).
    exists app2, w2. cbn [for_each]. rewrite bind_run, Hrun, Hrun2.
    split; [done|]. split; [done|]. split; [congruence | auto].
Qed.

(** Claim C10: the table built by [__init__] has the index at 0; after any
    sequence of rotation tasks, at any clock readings, every task has
    returned, the index is in [0, N-1], so that [draw_frame] finds its
    scene; once the index differs from 0 it stays in [1, N-1]. *)
Theorem scene_index_in_range (w : World) :
  hw w = [] ->
  exists (app : App.t) (w' : World),
    App.init 25 w = (Ok app, w') /\
    App.current_animation app = 0 /\
    forall (start : Z) (w1 : World) (clock : list Z),
      let n := Z.of_nat (length (App.animations app)) in
      let r := for_each clock tick (App.with_start start app, w1) in
      r.1 = Ok tt /\
      0 <= App.current_animation r.2.1 <= n - 1 /\
      Z.of_nat (length (App.animations r.2.1)) = n /\
      (exists scene,
          py_index (App.animations r.2.1) (App.current_animation r.2.1) r.2
          = (Ok scene, r.2)) /\
      forall later : list Z,
        App.current_animation r.2.1 <> 0 ->
        1 <= App.current_animation (for_each later tick r.2).2.1 <= n - 1.
Proof.
  intros Hhw.
  destruct (init_run w Hhw) as (app & g' & Hrun & _ & Hcur & Hsw & _ & Hlen).
  eexists app, _. split; [exact Hrun|]. split; [done|].
  intros start w1 clock n r.
  assert (index_ok (App.with_start start app)) as Hok.
  { unfold index_ok.
    cbn [App.with_start App.animations App.current_animation App.switch_every].
    rewrite Hsw, Hcur, Hlen. lia. }
  destruct (ticks_run clock _ w1 Hok) as (app1 & w2 & Hr & Hok1 & Han1 & _).
  unfold r. rewrite Hr. cbn [fst snd].
  cbn [App.with_start App.animations] in Han1.
  pose proof Hok1 as (_ & _ & Hc1). rewrite Han1 in Hc1. fold n in Hc1.
  split; [done|]. split; [lia|]. split; [by rewrite Han1|]. split.
  - apply py_index_in_range. by rewrite Han1.
  - intros later Hnz.
    destruct (ticks_run later app1 w2 Hok1) as (app2 & w3 & Hr2 & Hok2 & Han2 & Hnz2).
    rewrite Hr2. cbn [fst snd]. specialize (Hnz2 Hnz).
    destruct Hok2 as (_ & _ & Hc2). rewrite Han2, Han1 in Hc2. fold n in Hc2. lia.
Qed.

(** * Startup scenarios *)

Lemma start_app_run (w : World) :
  hw w = [] ->
  exists (app : App.t) (g' : Rng),
    let w1 := set_rng g' (set_hw boot_leds (after_state_init w)) in
    start_app w
    = ((App.run (60 * 4) (app, w1)).1, (App.run (60 * 4) (app, w1)).2.2) /\
    App.leds app = [0; 1; 2; 3]%nat /\
    App.frame_rate app = 25.
Proof.
  intros Hhw. destruct (init_run w Hhw) as (app & g' & Hrun & Hleds & _ & _ & Hfr & _).
  exists app, g'. split; [|done]. unfold start_app. rewrite Hrun.
  by destruct (App.run _ _) as [r [a w2]].
Qed.

Lemma main_run (w : World) :
  main w = match start_app w with
           | (Raise HaltException, w') => (Ok tt, set_sleeping true w')
           | r => r
           end.
Proof.
  unfold main, try_except. destruct (start_app w) as [[[]|e] w']; [done|].
  by destruct e.
Qed.

(** Claim C2: with the state file holding ACTIVE and no USB host, [run]
    blanks the outputs, leaves SLEEP in the state file and raises the halt
    signal with nothing scheduled and the loop not started.  Whatever the
    channels showed before, every registered channel ends at duty cycle 0
    with its pin and ceiling as they were, and no other channel is touched.
    For the script itself, which starts with no Led object, the four
    outputs end at 0 and the handler then sleeps forever. *)
Theorem active_on_battery_halts (run_for : Z) (app : App.t) (w : World) (s : string) :
  usb w = false ->
  files w !! state_file = Some s ->
  strip s = STATE_ACTIVE ->
  exists w' : World,
    App.run run_for (app, w) = (Raise HaltException, (app, w')) /\
    (forall r : Led.ref,
        hw w' !! r = (fun l => if decide (r ∈ App.leds app)
                               then Led.make (Led.pin l) (Led.frequency l)
                                      (Led._max_duty_cycle l) 0
                               else l) <$> hw w !! r) /\
    files w' = <[state_file := STATE_SLEEP]> (files w) /\
    fs_readonly w' = true /\
    loop_tasks w' = loop_tasks w /\
    loop_running w' = loop_running w /\
    stdout w' = stdout w ++ [out_fancy_title; out_last_state STATE_ACTIVE;
                             out_going_to_sleep] /\
    (hw w = [] ->
     exists w'' : World,
       start_app w = (Raise HaltException, w'') /\
       hw w'' = boot_leds /\
       files w'' !! state_file = Some STATE_SLEEP /\
       loop_tasks w'' = loop_tasks w /\
       loop_running w'' = loop_running w /\
       main w = (Ok tt, set_sleeping true w'')).
Proof.
  intros Hu Hf Hs.
  eexists. split; [by apply (run_halts _ _ _ s)|].
  split.
  { intros r. destruct w as [h u ro f g t v c o l rn z]. wsimpl.
    rewrite foldl_alter_lookup by reflexivity.
    destruct (h !! r); [|done]. cbn. by destruct (decide _). }
  destruct w as [h u ro f g t v c o l rn z]. wsimpl.
  do 5 (split; [done|]).
  intros Hhw.
  destruct (start_app_run (mkWorld h u ro f g t v c o l rn z) Hhw)
    as (app' & g' & Hrun & Hleds & _).
  cbv zeta in Hrun. unfold after_state_init in Hrun. rewrite Hu, Hf in Hrun.
  simpl in Hhw, Hu, Hf. subst h u.
  rewrite (run_halts _ _ _ s) in Hrun by done.
  rewrite Hleds in Hrun. wsimpl_in Hrun.
  eexists. split; [exact Hrun|]. wsimpl.
  split; [done|].
  split; [apply lookup_insert_eq|]. do 2 (split; [done|]).
  by rewrite main_run, Hrun.
Qed.

(** Claim C1, as the source has it: with no state file and no USB host,
    [__init__] creates the file holding ACTIVE before [run] reads it; [run]
    reads ACTIVE, leaves SLEEP in the file, blanks the outputs and raises
    the halt signal with nothing scheduled.  With no state file and a USB
    host, [run] reads UNKNOWN, writes nothing and schedules its four tasks
    and starts the loop. *)
Theorem no_state_file_startup (w : World) :
  hw w = [] ->
  files w !! state_file = None ->
  (usb w = false ->
   (exists (app : App.t) (w1 : World),
       App.init 25 w = (Ok app, w1) /\ files w1 !! state_file = Some STATE_ACTIVE) /\
   exists w' : World,
     start_app w = (Raise HaltException, w') /\
     stdout w' = stdout w ++ [out_fancy_title; out_last_state STATE_ACTIVE;
                              out_going_to_sleep] /\
     files w' !! state_file = Some STATE_SLEEP /\
     all_blank (hw w') /\
     loop_tasks w' = loop_tasks w /\
     loop_running w' = loop_running w) /\
  (usb w = true ->
   exists w' : World,
     start_app w = (Ok tt, w') /\
     stdout w' = stdout w ++ [out_fancy_title; out_last_state STATE_UNKNOWN] /\
     files w' = files w /\
     loop_tasks w' = loop_tasks w ++ scheduled 25 (60 * 4) /\
     loop_running w' = true).
Proof.
  intros Hhw Hf. split; intros Hu.
  - split.
    + destruct (init_run w Hhw) as (app & g' & Hrun & _).
      eexists app, _. split; [exact Hrun|].
      unfold after_state_init. rewrite Hu, Hf.
      destruct w as [h u ro f g t v c o l r z]. wsimpl. apply lookup_insert_eq.
    + destruct (start_app_run w Hhw) as (app & g' & Hrun & Hleds & _).
      cbv zeta in Hrun. unfold after_state_init in Hrun. rewrite Hu, Hf in Hrun.
      destruct w as [h u ro f g t v c o l r z]. simpl in Hhw, Hu, Hf. subst h u.
      rewrite (run_halts _ _ _ STATE_ACTIVE) in Hrun;
        [|done|apply lookup_insert_eq|done].
      rewrite Hleds in Hrun. wsimpl_in Hrun.
      eexists. split; [exact Hrun|]. wsimpl.
      split; [done|]. split; [apply lookup_insert_eq|].
      split; [by repeat constructor|]. done.
  - destruct (start_app_run w Hhw) as (app & g' & Hrun & _ & Hfr).
    cbv zeta in Hrun. unfold after_state_init in Hrun. rewrite Hu in Hrun.
    destruct w as [h u ro f g t v c o l r z]. simpl in Hhw, Hu, Hf. subst h u.
    rewrite run_unknown in Hrun by done. rewrite Hfr in Hrun. wsimpl_in Hrun.
    eexists. split; [exact Hrun|]. by wsimpl.
Qed.

(** Claim C8: while a USB host holds the drive, [is_usb_connected] answers
    yes and [set_state] returns at once: no remount, no write, no
    exception, whatever the state asked for; the board is as before. *)
Theorem set_state_skipped_on_usb (state : string) (w : World) :
  usb w = true ->
  is_usb_connected w = (Ok true, w) /\
  App.set_state state w = (Ok tt, w).
Proof.
  intros Hu. by rewrite is_usb_connected_run, set_state_run, Hu.
Qed.

(** * More on the outputs *)




Lemma min_le_1 (p : Qc) : (Py.min p 1 <= 1)%Qc.
Proof.
  unfold Py.min. destruct (Py.ltb 1 p) eqn:E; [apply Qcle_refl|].
  unfold Py.ltb in E. apply negb_false_iff in E. by apply leb_le.
Qed.

Lemma min_ge_1 (p : Qc) : (1 <= p)%Qc -> Py.min p 1 = 1%Qc.
Proof.
  intros Hp. unfold Py.min. destruct (Py.ltb 1 p) eqn:E; [done|].
  unfold Py.ltb in E. apply negb_false_iff, leb_le in E. by apply Qcle_antisym.
Qed.

Lemma min_nonneg (p : Qc) : (0 <= p)%Qc -> (0 <= Py.min p 1)%Qc.
Proof. intros Hp. unfold Py.min. by destruct (Py.ltb 1 p). Qed.

Lemma minZ_le_r (a b : Z) : Py.minZ a b <= b.
Proof. unfold Py.minZ. destruct (Z.ltb_spec b a); lia. Qed.

Lemma set_obj_within (p : Qc) (l : Led.t) : within_ceiling (Led.set_obj p l).
Proof. unfold within_ceiling. cbn. apply minZ_le_r. Qed.

Lemma set_obj_nonneg (p : Qc) (l : Led.t) :
  (0 <= p)%Qc -> 0 <= Led._max_duty_cycle l -> 0 <= Led.duty_cycle (Led.set_obj p l).
Proof.
  intros Hp Hm. unfold Led.set_obj. cbn [Led.duty_cycle Led.with_duty Led._max_duty_cycle].
  assert (0 <= Py.int (Py.of_int (Led._max_duty_cycle l) * Py.min p 1)%Qc) as Hi.
  { apply int_nonneg. apply Qcmult_nonneg_nonneg; [by apply (of_int_le 0)|].
    by apply min_nonneg. }
  unfold Py.minZ. by destruct (_ <? _).
Qed.

Lemma set_obj_full (p : Qc) (l : Led.t) : (1 <= p)%Qc -> Led.set_obj p l = Led.on_obj l.
Proof.
  intros Hp. unfold Led.set_obj, Led.on_obj. rewrite min_ge_1 by done.
  rewrite Qcmult_1_r, int_of_int. unfold Py.minZ. by rewrite Z.ltb_irrefl.
Qed.

Lemma set_obj_zero (l : Led.t) :
  0 <= Led._max_duty_cycle l -> Led.set_obj 0%Qc l = Led.off_obj l.
Proof.
  intros Hm. unfold Led.set_obj, Led.off_obj.
  replace (Py.min 0 1)%Qc with 0%Qc by done.
  rewrite Qcmult_0_r. change (Py.int 0%Qc) with 0. unfold Py.minZ.
  by destruct (Z.ltb_spec (Led._max_duty_cycle l) 0); [lia|].
Qed.

(** X1: [Led.set] never drives a channel above its ceiling, and never below
    0 for a non-negative fraction and ceiling; at a fraction of 1 or more it
    is [Led.on], and at 0 on a non-negative ceiling it is [Led.off]. *)
Theorem led_set_bounds (self : Led.ref) (pct : Qc) (h : Led.store) (l : Led.t) :
  h !! self = Some l ->
  exists d : Z,
    (Led.set self pct h).2 !! self = Some (Led.with_duty d l) /\
    d <= Led._max_duty_cycle l /\
    ((0 <= pct)%Qc -> 0 <= Led._max_duty_cycle l -> 0 <= d) /\
    ((1 <= pct)%Qc -> Led.set self pct h = Led.on self h) /\
    (pct = 0%Qc -> 0 <= Led._max_duty_cycle l -> Led.set self pct h = Led.off self h).
Proof.
  intros Hl. exists (Led.duty_cycle (Led.set_obj pct l)).
  unfold Led.set, Led.on, Led.off, modify. cbn [snd].
  rewrite list_lookup_alter_eq, Hl. split; [done|]. split_and!.
  - apply set_obj_within.
  - apply set_obj_nonneg.
  - intros Hp. f_equal. apply list_eq. intros i.
    destruct (decide (i = self)) as [->|Hne].
    + by rewrite !list_lookup_alter_eq, Hl; cbn; rewrite set_obj_full.
    + by rewrite !list_lookup_alter_ne.
  - intros -> Hm. f_equal. apply list_eq. intros i.
    destruct (decide (i = self)) as [->|Hne].
    + by rewrite !list_lookup_alter_eq, Hl; cbn; rewrite set_obj_zero.
    + by rewrite !list_lookup_alter_ne.
Qed.

(** X2: [register_led] hands out a fresh reference: it is the next free
    position, so it differs from every led registered before when those
    point into the store; the objects already in the store are untouched,
    the new one is dark with the ceiling asked for, and nothing but the
    store changes. *)
Theorem register_led_fresh
    (self_leds : list Led.ref) (p : Pin) (max_duty_cycle : Z) (w : World) :
  Forall (fun r => (r < length (hw w))%nat) self_leds ->
  exists led : Led.ref,
    App.register_led self_leds p max_duty_cycle w
    = (Ok (led, self_leds ++ [led]),
       set_hw (hw w ++ [Led.make p pwm_freq max_duty_cycle 0]) w) /\
    (led ∉ self_leds) /\
    Forall (fun r => (r < S (length (hw w)))%nat) (self_leds ++ [led]) /\
    (NoDup self_leds -> NoDup (self_leds ++ [led])) /\
    ((hw w ++ [Led.make p pwm_freq max_duty_cycle 0]) !! led
     = Some (Led.make p pwm_freq max_duty_cycle 0)) /\
    forall r, (r < length (hw w))%nat ->
              (hw w ++ [Led.make p pwm_freq max_duty_cycle 0]) !! r = hw w !! r.
Proof.
  intros Hin. exists (length (hw w)).
  assert (length (hw w) ∉ self_leds) as Hfresh.
  { intros Hel. rewrite Forall_forall in Hin. apply Hin in Hel. lia. }
  split; [reflexivity|]. split; [done|]. split_and!.
  - apply Forall_app. split.
    + eapply Forall_impl; [exact Hin|]. simpl. lia.
    + repeat constructor.
  - intros Hnd. apply NoDup_app. split; [done|]. split.
    + intros x Hx [->|[]%elem_of_nil]%elem_of_cons. by apply Hfresh.
    + apply NoDup_singleton.
  - by rewrite lookup_app_r, Nat.sub_diag.
  - intros r Hr. by rewrite lookup_app_l.
Qed.

Lemma off_obj_idemp (l : Led.t) : Led.off_obj (Led.off_obj l) = Led.off_obj l.
Proof. reflexivity. Qed.

(** X3: [blank] puts every registered channel at 0 and touches nothing
    else: the other channels, the ceilings, the pins and the rest of the
    board stay as they are; it never raises, and blanking twice is blanking
    once. *)
Theorem blank_all_off (leds : list Led.ref) (w : World) :
  exists h' : Led.store,
    App.blank leds w = (Ok tt, set_hw h' w) /\
    length h' = length (hw w) /\
    (forall r : Led.ref,
        h' !! r = (fun l => if decide (r ∈ leds)
                            then Led.make (Led.pin l) (Led.frequency l)
                                   (Led._max_duty_cycle l) 0
                            else l) <$> hw w !! r) /\
    App.blank leds (set_hw h' w) = (Ok tt, set_hw h' w).
Proof.
  exists (foldl (fun h r => alter Led.off_obj r h) (hw w) leds).
  split; [apply blank_run|].
  assert (forall (h : Led.store) (r : Led.ref),
    foldl (fun h r => alter Led.off_obj r h) h leds !! r
    = (fun l => if decide (r ∈ leds)
                then Led.make (Led.pin l) (Led.frequency l) (Led._max_duty_cycle l) 0
                else l) <$> h !! r) as Hlk.
  { intros h r. rewrite foldl_alter_lookup by apply off_obj_idemp.
    destruct (h !! r); [|done]. cbn. by destruct (decide _). }
  split_and!.
  - clear Hlk. generalize (hw w). induction leds as [|r leds IH]; intros h; [done|].
    cbn [foldl]. rewrite IH. apply length_alter.
  - apply Hlk.
  - rewrite blank_run. f_equal. destruct w as [h u ro f g t v c o l r z].
    unfold set_hw.
    cbn [hw usb fs_readonly files rng monotonic_ns vbat_value cpu_temperature
         stdout loop_tasks loop_running sleeping].
    f_equal. apply list_eq. intros i. rewrite !Hlk.
    destruct (h !! i); [|done]. cbn. by destruct (decide _).
Qed.

Lemma set_all_lookup (self : Animation.t) (v : Qc) (h : Led.store) (r : Led.ref) :
  (Animation.set_all self v h).2 !! r
  = (if decide (r ∈ Animation.leds self)
     then Led.set_obj (v * Animation.scale_max self)%Qc else id) <$> h !! r.
Proof. rewrite set_all_run. cbn [snd]. apply foldl_alter_lookup, set_obj_idemp. Qed.

Lemma set_all_length (self : Animation.t) (v : Qc) (h : Led.store) :
  length (Animation.set_all self v h).2 = length h.
Proof.
  rewrite set_all_run. cbn [snd]. generalize h.
  induction (Animation.leds self) as [|r rs IH]; intros k; [done|].
  cbn [foldl]. rewrite IH. apply length_alter.
Qed.

Lemma min_id (p : Qc) : (p <= 1)%Qc -> Py.min p 1 = p.
Proof.
  intros Hp. unfold Py.min. destruct (Py.ltb 1 p) eqn:E; [|done].
  apply ltb_lt in E. by apply Qcle_not_lt in Hp.
Qed.

Lemma set_obj_duty (p : Qc) (l : Led.t) :
  0 <= Led._max_duty_cycle l ->
  Led.duty_cycle (Led.set_obj p l)
  = Py.int (Py.of_int (Led._max_duty_cycle l) * Py.min p 1)%Qc.
Proof.
  intros Hm. unfold Led.set_obj. cbn [Led.duty_cycle Led.with_duty Led._max_duty_cycle].
  set (m := Led._max_duty_cycle l) in *.
  assert (Py.int (Py.of_int m * Py.min p 1)%Qc <= m) as Hi.
  { rewrite <- (int_of_int m) at 2. apply int_mono.
    pose proof (min_le_1 p) as H1.
    apply (of_int_le 0) in Hm. change (Py.of_int 0) with 0%Qc in Hm.
    qc_to_q. nra. }
  unfold Py.minZ. destruct (Z.ltb_spec m (Py.int (Py.of_int m * Py.min p 1)%Qc)); lia.
Qed.

(** Claim C3, as the source has it: [set_all] multiplies the value by
    [scale_max] first, and [Led.set] then clamps the product to at most 1.
    For a product that is not negative and channels with the ceilings of a
    16-bit register, the call returns, the channels the animation does not
    own keep their state, and every owned channel gets a duty cycle between
    0 and its ceiling: the ceiling itself as soon as [value * scale_max]
    reaches 1, whatever [value] alone is; 0 when the product is 0; and in
    general [int(max_duty_cycle * min(value * scale_max, 1))] to within one
    count, the two products being floating-point ones. *)
Theorem set_all_scales_then_clamps (self : Animation.t) (value : Qc) (h : Led.store) :
  let p := (value * Animation.scale_max self)%Qc in
  (0 <= p)%Qc ->
  sixteen_bit h (Animation.leds self) ->
  exists h' : Led.store,
    Animation.set_all self value h = (Ok tt, h') /\
    forall r : Led.ref,
      (r ∉ Animation.leds self -> h' !! r = h !! r) /\
      (r ∈ Animation.leds self ->
       forall l : Led.t,
         h !! r = Some l ->
         exists d : Z,
           h' !! r = Some (Led.with_duty d l) /\
           0 <= d <= Led._max_duty_cycle l /\
           ((1 <= p)%Qc -> d = Led._max_duty_cycle l) /\
           (p = 0%Qc -> d = 0) /\
           Z.abs (d - Py.int (Py.of_int (Led._max_duty_cycle l) * Py.min p 1)%Qc) <= 1).
Proof.
  intros p Hp H16. exists (Animation.set_all self value h).2.
  split; [by rewrite set_all_run|]. intros r. rewrite set_all_lookup. fold p.
  split; intros Hr.
  - destruct (decide _) as [|_]; [done|]. by destruct (h !! r).
  - destruct (decide _) as [_|]; [|done]. intros l Hl. rewrite Hl.
    destruct (H16 r l Hr Hl) as [Hm _].
    exists (Led.duty_cycle (Led.set_obj p l)). split; [done|]. split_and!.
    + by apply set_obj_nonneg.
    + apply set_obj_within.
    + intros H1. by rewrite set_obj_full.
    + intros ->. by rewrite set_obj_zero.
    + rewrite set_obj_duty by done. lia.
Qed.

(** X4: writes are last-writer-wins.  After [a.set_all(v)] then
    [b.set_all(u)], a channel of [b] shows what [b] alone would have
    written, a channel of [a] that [b] does not own shows what [a] wrote,
    and any other channel is untouched; so a second [set_all] on the same
    animation simply replaces the first. *)
Theorem set_all_last_writer_wins (a b : Animation.t) (v u : Qc) (h : Led.store) :
  (forall r : Led.ref,
      (Animation.set_all b u (Animation.set_all a v h).2).2 !! r
      = if decide (r ∈ Animation.leds b) then (Animation.set_all b u h).2 !! r
        else (Animation.set_all a v h).2 !! r) /\
  (Animation.set_all a u (Animation.set_all a v h).2).2 = (Animation.set_all a u h).2.
Proof.
  assert (forall (a b : Animation.t) (v u : Qc) (r : Led.ref),
      (Animation.set_all b u (Animation.set_all a v h).2).2 !! r
      = if decide (r ∈ Animation.leds b) then (Animation.set_all b u h).2 !! r
        else (Animation.set_all a v h).2 !! r) as Hlk.
  { intros a' b' v' u' r. rewrite !set_all_lookup.
    destruct (h !! r); [|by destruct (decide _)]. cbn.
    by destruct (decide (r ∈ Animation.leds b')), (decide (r ∈ Animation.leds a')). }
  split; [apply Hlk|].
  apply list_eq. intros r. rewrite Hlk, !set_all_lookup.
  by destruct (decide _).
Qed.

(** * What a frame can do to the channels *)

Lemma bind_pure {S A B} (p : M S A) (k : A -> M S B) (s : S) :
  (p s).2 = s ->
  (p ≫= k) s = match (p s).1 with
               | Ok a => k a s
               | Raise e => (Raise e, s)
               end.
Proof. intros Hp. rewrite bind_run. destruct (p s) as [[a|e] s']; simpl in *; by subst. Qed.

Lemma py_div_state {S} (x y : Qc) (s : S) : (py_div x y s).2 = s.
Proof. unfold py_div. by destruct (Py.eqb y 0%Qc). Qed.

Lemma py_mod_state {S} (x y : Qc) (s : S) : (py_mod x y s).2 = s.
Proof. unfold py_mod. by destruct (Py.eqb y 0%Qc). Qed.

Lemma py_modZ_state {S} (x y : Z) (s : S) : (py_modZ x y s).2 = s.
Proof. unfold py_modZ. by destruct (y =? 0). Qed.

Lemma py_index_state {A S} (l : list A) (i : Z) (s : S) : (py_index l i s).2 = s.
Proof. by rewrite py_index_run. Qed.

Lemma set_all_then {B} (self : Animation.t) (v : Qc) (k : unit -> M Led.store B)
    (h : Led.store) :
  (Animation.set_all self v ≫= k) h = k tt (Animation.set_all self v h).2.
Proof. rewrite bind_run, set_all_run. reflexivity. Qed.

Lemma render_store (math : Math) (self : Animation.t) (fia c : Qc) (h : Led.store) :
  (render math self fia c h).2 = h
  \/ exists v : Qc, (render math self fia c h).2 = (Animation.set_all self v h).2.
Proof.
  unfold render.
  destruct (Animation.variant self) as [| | |gd gv fpg| |pct [|]].
  - by left.
  - right. eexists. unfold Sine.render. rewrite set_all_then. reflexivity.
  - right. eexists. unfold FlashAndDecay.render. rewrite set_all_then. reflexivity.
  - unfold RandomGlitch.render.
    rewrite bind_pure by apply py_div_state.
    destruct (py_div _ _ h).1 as [q|e]; [|by left].
    rewrite bind_pure by apply py_index_state.
    destruct (py_index gv _ h).1 as [g1|e]; [|by left].
    rewrite bind_pure by apply py_modZ_state.
    destruct (py_modZ _ _ h).1 as [i2|e]; [|by left].
    rewrite bind_pure by apply py_index_state.
    destruct (py_index gv i2 h).1 as [g2|e]; [|by left].
    rewrite bind_pure by apply py_div_state.
    destruct (py_div _ _ h).1 as [step|e]; [|by left].
    right. eexists. rewrite set_all_then. reflexivity.
  - unfold Blink.render. right.
    destruct (Py.leb c (1 / 2)%Qc); eexists; rewrite set_all_then; reflexivity.
  - by left.
  - right. eexists. unfold Static.render. cbn [negb].
    rewrite set_all_then. reflexivity.
Qed.

Lemma exec_store (math : Math) (self : Animation.t) (f : Z) (h : Led.store) :
  (exec math self f h).2 = h
  \/ exists v : Qc, (exec math self f h).2 = (Animation.set_all self v h).2.
Proof.
  destruct (decide (Animation.frame_count self = 0)) as [H0|H0].
  - left. by rewrite exec_zero.
  - rewrite exec_nonzero by done. apply render_store.
Qed.

(** X5: whatever the variant, the frame and the outcome, [exec] touches
    only the channels its animation owns, and never their pins or ceilings;
    the store keeps its size; and every channel it leaves differs from
    before is at or below its ceiling, so a store whose channels all respect
    their ceilings stays so. *)
Theorem exec_owned_channels_only
    (math : Math) (self : Animation.t) (f : Z) (h : Led.store) :
  let h' := (exec math self f h).2 in
  length h' = length h /\
  (forall r : Led.ref, r ∉ Animation.leds self -> h' !! r = h !! r) /\
  (forall (r : Led.ref) (l' : Led.t),
      h' !! r = Some l' ->
      exists l : Led.t,
        h !! r = Some l /\
        Led.pin l' = Led.pin l /\
        Led._max_duty_cycle l' = Led._max_duty_cycle l /\
        (l' = l \/ within_ceiling l')) /\
  (Forall within_ceiling h -> Forall within_ceiling h').
Proof.
  intros h'.
  assert (h' = h \/ exists v, h' = (Animation.set_all self v h).2) as [->| [v ->]]
    by apply exec_store.
  { split; [done|]. split; [done|]. split; [|done]. intros r l' Hl'. by exists l'; auto. }
  assert (forall (r : Led.ref) (l' : Led.t),
      (Animation.set_all self v h).2 !! r = Some l' ->
      exists l : Led.t,
        h !! r = Some l /\ Led.pin l' = Led.pin l /\
        Led._max_duty_cycle l' = Led._max_duty_cycle l /\
        (l' = l \/ within_ceiling l')) as Hchan.
  { intros r l'. rewrite set_all_lookup.
    destruct (h !! r) as [l|]; [|done]. cbn. intros [= <-]. exists l.
    destruct (decide _); [|by auto].
    split; [done|]. split; [done|]. split; [done|]. right. apply set_obj_within. }
  split_and!.
  - apply set_all_length.
  - intros r Hr. rewrite set_all_lookup, decide_False by done. by destruct (h !! r).
  - exact Hchan.
  - rewrite !Forall_lookup. intros Hall r l' Hl'.
    destruct (Hchan r l' Hl') as (l & Hl & _ & _ & [->|Hw]); [by eapply Hall|done].
Qed.

(** * Rendering the randomized flicker *)

Lemma py_index_lookup {A S} (l : list A) (i : Z) (x : A) (s : S) :
  0 <= i < Z.of_nat (length l) ->
  l !! Z.to_nat i = Some x ->
  py_index l i s = (Ok x, s).
Proof.
  intros Hi Hx. unfold py_index.
  destruct (Z.ltb_spec i 0); [lia|].
  destruct (Z.ltb_spec i 0); [lia|].
  destruct (Z.leb_spec (Z.of_nat (length l)) i); [lia|]. cbn [orb].
  by rewrite Hx.
Qed.

Lemma of_int_neq_0 (z : Z) : z <> 0 -> Py.of_int z <> 0%Qc.
Proof. intros Hz H. by apply (of_int_inj z 0) in H. Qed.


Lemma segment_position (self : Animation.t) (fpg len : Z) (f : Z) :
  0 < len ->
  fpg * len = Animation.frame_count self ->
  Animation.frame_count self <> 0 ->
  let q := (frame_in_animation self f / Py.of_int fpg)%Qc in
  0 <= Py.floor q < len /\
  (0 <= q - Py.of_int (Py.floor q))%Qc /\ (q - Py.of_int (Py.floor q) < 1)%Qc.
Proof.
  intros Hlen Hfc H0 q.
  assert (fpg <> 0) as Hfpg by (intros ->; lia).
  pose proof (of_int_neq_0 _ Hfpg) as Hfpg'.
  pose proof (of_int_neq_0 _ H0) as Hfc'.
  destruct (completed_range self f H0) as [Hc0 Hc1].
  assert (q = completed self f * Py.of_int len)%Qc as Hq.
  { unfold q, completed. rewrite <- Hfc, of_int_mul in *.
    assert (Py.of_int len <> 0%Qc) by (apply of_int_neq_0; lia).
    field. split; [done|]. by apply of_int_neq_0. }
  assert (0 < Py.of_int len)%Qc as HL by (by apply (of_int_lt 0)).
  assert (0 <= q)%Qc as Hq0.
  { rewrite Hq. apply Qcmult_nonneg_nonneg; [done|]. by apply Qclt_le_weak. }
  assert (q < Py.of_int len)%Qc as Hq1.
  { rewrite Hq. rewrite <- (Qcmult_1_l (Py.of_int len)) at 2.
    by apply Qcmult_lt_mono_pos_r. }
  pose proof (floor_le q) as Hl. pose proof (floor_lt q) as Hu.
  split; [split|split].
  - by apply floor_nonneg.
  - apply of_int_lt. by eapply Qcle_lt_trans.
  - apply (Qcplus_le_mono_r _ _ (Py.of_int (Py.floor q))). by ring_simplify.
  - rewrite of_int_add in Hu. change (Py.of_int 1) with 1%Qc in Hu.
    apply (Qcplus_lt_mono_r _ _ (Py.of_int (Py.floor q))).
    by replace (q - Py.of_int (Py.floor q) + Py.of_int (Py.floor q))%Qc with q by ring;
      rewrite Qcplus_comm.
Qed.

Lemma random_glitch_exec
    (math : Math) (self : Animation.t) (gd : Qc) (gv : list Qc) (fpg : Z)
    (f : Z) (h : Led.store) :
  Animation.variant self = RandomGlitch gd gv fpg ->
  0 < Z.of_nat (length gv) ->
  fpg * Z.of_nat (length gv) = Animation.frame_count self ->
  Animation.frame_count self <> 0 ->
  let fia := frame_in_animation self f in
  let i := Py.floor (fia / Py.of_int fpg)%Qc in
  exists g1 g2 : Qc,
    gv !! Z.to_nat i = Some g1 /\
    gv !! Z.to_nat ((i + 1) mod Z.of_nat (length gv)) = Some g2 /\
    exec math self f h
    = (Ok self,
       (Animation.set_all self
          (g1 + (fia - Py.of_int (i * fpg)) * ((g2 - g1) / Py.of_int fpg))%Qc h).2).
Proof.
  intros Hv Hlen Hfc H0 fia i.
  assert (fpg <> 0) as Hfpg by (intros ->; lia).
  destruct (segment_position self fpg _ f Hlen Hfc H0) as (Hi & _ & _).
  fold fia i in Hi.
  pose proof (Z.mod_pos_bound (i + 1) _ Hlen) as Hi2.
  destruct (lookup_lt_is_Some_2 gv (Z.to_nat i) ltac:(lia)) as [g1 Hg1].
  destruct (lookup_lt_is_Some_2 gv (Z.to_nat ((i + 1) mod Z.of_nat (length gv)))
              ltac:(lia)) as [g2 Hg2].
  exists g1, g2. split; [done|]. split; [done|].
  rewrite exec_nonzero by done. fold fia. unfold render. rewrite Hv.
  unfold RandomGlitch.render.
  rewrite bind_run. unfold py_div at 1. rewrite of_int_eqb_0.
  destruct (Z.eqb_spec fpg 0) as [?|_]; [done|]. cbn [mret M_ret].
  fold i. rewrite bind_run, (py_index_lookup gv i g1) by done.
  rewrite bind_run. unfold py_modZ.
  destruct (Z.eqb_spec (Z.of_nat (length gv)) 0) as [?|_]; [lia|]. cbn [mret M_ret].
  rewrite bind_run, (py_index_lookup gv _ g2) by done.
  rewrite bind_run. unfold py_div. rewrite of_int_eqb_0.
  destruct (Z.eqb_spec fpg 0) as [?|_]; [done|]. cbn [mret M_ret].
  by rewrite set_all_then.
Qed.


(** * The loop never fails *)

Lemma exec_renderable (math : Math) (a : Animation.t) (f : Z) (h : Led.store) :
  renderable a = true ->
  exists (a' : Animation.t) (h' : Led.store),
    exec math a f h = (Ok a', h') /\ renderable a' = true.
Proof.
  unfold renderable. intros [H0 Hv]%andb_true_iff.
  apply negb_true_iff, Z.eqb_neq in H0.
  destruct (Animation.variant a) as [| | |gd gv fpg| |pct [|]] eqn:Hva; try done.
  - do 2 eexists. rewrite exec_nonzero by done. unfold render. rewrite Hva.
    unfold Sine.render. rewrite set_all_then. split; [reflexivity|].
    unfold renderable. rewrite Hva. by apply andb_true_iff, conj; [apply negb_true_iff, Z.eqb_neq|].
  - do 2 eexists. rewrite exec_nonzero by done. unfold render. rewrite Hva.
    unfold FlashAndDecay.render. rewrite set_all_then. split; [reflexivity|].
    unfold renderable. rewrite Hva. by apply andb_true_iff, conj; [apply negb_true_iff, Z.eqb_neq|].
  - apply andb_true_iff in Hv as [Hlen Hfc].
    apply Z.ltb_lt in Hlen. apply Z.eqb_eq in Hfc.
    destruct (random_glitch_exec math a gd gv fpg f h Hva Hlen Hfc H0)
      as (g1 & g2 & _ & _ & ->).
    do 2 eexists. split; [reflexivity|]. unfold renderable. rewrite Hva.
    apply andb_true_iff. split; [by apply negb_true_iff, Z.eqb_neq|].
    apply andb_true_iff. split; [by apply Z.ltb_lt | by apply Z.eqb_eq].
  - rewrite exec_nonzero by done. unfold render. rewrite Hva.
    unfold Blink.render.
    destruct (Py.leb _ _); rewrite set_all_then; do 2 eexists;
      (split; [reflexivity|]); unfold renderable; rewrite Hva;
      by apply andb_true_iff, conj; [apply negb_true_iff, Z.eqb_neq|].
  - do 2 eexists. rewrite exec_nonzero by done. unfold render. rewrite Hva.
    split; [reflexivity|]. unfold renderable. rewrite Hva.
    by apply andb_true_iff, conj; [apply negb_true_iff, Z.eqb_neq|].
  - do 2 eexists. rewrite exec_nonzero by done. unfold render. rewrite Hva.
    unfold Static.render. cbn [negb]. rewrite set_all_then. split; [reflexivity|].
    unfold renderable. cbn. by apply andb_true_iff, conj; [apply negb_true_iff, Z.eqb_neq|].
Qed.

Lemma exec_scene_renderable (math : Math) (scene : list Animation.t) (f : Z)
    (h : Led.store) :
  Forall (fun a => renderable a = true) scene ->
  exists (scene' : list Animation.t) (h' : Led.store),
    App.exec_scene math scene f h = (Ok scene', h') /\
    Forall (fun a => renderable a = true) scene'.
Proof.
  revert h. induction scene as [|a scene IH]; intros h Hall.
  - by exists [], h.
  - apply Forall_cons in Hall as [Ha Hall].
    destruct (exec_renderable math a f h Ha) as (a' & h1 & Hrun & Ha').
    destruct (IH h1 Hall) as (scene' & h2 & Hrun' & Hall').
    exists (a' :: scene'), h2. cbn [App.exec_scene].
    rewrite bind_run, Hrun, bind_run, Hrun'. split; [done|]. by constructor.
Qed.

Lemma frame_number_run (app : App.t) (w : World) :
  App.frame_number (app, w)
  = (Ok (Py.int (Py.of_int (App.frame_rate app) * elapsed_at app w)%Qc), (app, w)).
Proof. reflexivity. Qed.

Lemma draw_frame_ok (math : Math) (app : App.t) (w : World) :
  table_ok app ->
  exists (app' : App.t) (h' : Led.store),
    App.draw_frame math (app, w) = (Ok tt, (app', set_hw h' w)) /\
    table_ok app' /\
    App.current_animation app' = App.current_animation app /\
    length (App.animations app') = length (App.animations app).
Proof.
  intros [Hidx Htab]. pose proof Hidx as (Hsw & Hn & Hc).
  unfold App.draw_frame. rewrite bind_run, frame_number_run.
  rewrite bind_run. cbn [App.self fst snd].
  destruct (lookup_lt_is_Some_2 (App.animations app)
              (Z.to_nat (App.current_animation app)) ltac:(lia)) as [scene Hscene].
  rewrite bind_run, (py_index_lookup _ _ scene) by done.
  assert (Forall (fun a => renderable a = true) scene) as Hall
    by (by eapply Forall_lookup_1 in Htab).
  destruct (exec_scene_renderable math scene
              (Py.int (Py.of_int (App.frame_rate app) * elapsed_at app w)%Qc)
              (hw w) Hall) as (scene' & h' & Hrun & Hall').
  rewrite bind_run, world_run. unfold on_hw, zoom. rewrite Hrun. cbn [fst snd].
  destruct (Z.ltb_spec (App.current_animation app) 0) as [?|_]; [lia|].
  do 2 eexists. split; [reflexivity|].
  cbn [App.with_animations App.animations App.current_animation fst].
  rewrite length_insert. split; [|done]. split.
  - unfold index_ok.
    cbn [App.with_animations App.animations App.current_animation App.switch_every].
    by rewrite length_insert.
  - cbn [App.with_animations App.animations]. by apply Forall_insert.
Qed.

Lemma update_animation_set_files (app : App.t) (w : World) :
  App.switch_every app <> 0 ->
  files (App.update_animation_set (app, w)).2.2 = files w /\
  hw (App.update_animation_set (app, w)).2.2 = hw w.
Proof.
  intros Hsw. rewrite update_animation_set_run by done.
  destruct (Py.leb _ _); [done|]. destruct (rotation_due _ _); [|done].
  cbv zeta. destruct (py_index _ _ _).1; [|done]. by destruct w.
Qed.

Lemma invoke_ok (math : Math) (call : Z * Coroutine) (app : App.t) (w : World) :
  call.2 <> halt_task ->
  table_ok app ->
  exists (app' : App.t) (w' : World),
    invoke math call (app, w) = (Ok tt, (app', w')) /\
    table_ok app' /\
    length (App.animations app') = length (App.animations app) /\
    files w' = files w.
Proof.
  destruct call as [now co]. cbn [fst snd]. intros Hco [Hidx Htab].
  unfold invoke. cbn [fst snd]. rewrite bind_run, world_run. cbn [modify fst snd].
  set (w1 := set_monotonic_ns now w).
  assert (files w1 = files w) as Hf1 by (by destruct w).
  destruct co; [| | |done].
  - destruct (draw_frame_ok math app w1 (conj Hidx Htab)) as (app' & h' & -> & Hok & _ & Hlen).
    exists app', (set_hw h' w1). split; [done|]. split; [done|]. split; [done|].
    rewrite <- Hf1. by destruct w1.
  - exists app. eexists. unfold App.print_power. rewrite world_run. cbn [fst snd].
    split; [reflexivity|]. split; [done|]. split; [done|].
    rewrite <- Hf1. by destruct w1.
  - destruct (tick_step now app w Hidx) as (app' & w' & Hrun & Hok & Han & _).
    unfold tick in Hrun. rewrite bind_run, world_run in Hrun.
    cbn [modify fst snd] in Hrun. fold w1 in Hrun.
    exists app', w'. split; [done|]. split; [split; [done|by rewrite Han]|].
    split; [by rewrite Han|].
    pose proof Hidx as (Hsw & _).
    destruct (update_animation_set_files app w1 ltac:(lia)) as [Hf _].
    rewrite Hrun in Hf. cbn [snd] in Hf. by rewrite Hf.
Qed.

Lemma invokes_ok (math : Math) (calls : list (Z * Coroutine)) (app : App.t) (w : World) :
  Forall (fun call => call.2 <> halt_task) calls ->
  table_ok app ->
  exists (app' : App.t) (w' : World),
    for_each calls (invoke math) (app, w) = (Ok tt, (app', w')) /\
    table_ok app' /\
    length (App.animations app') = length (App.animations app) /\
    files w' = files w.
Proof.
  revert app w. induction calls as [|call calls IH]; intros app w Hall Hok.
  - by exists app, w.
  - apply Forall_cons in Hall as [Hc Hall].
    destruct (invoke_ok math call app w Hc Hok) as (app1 & w1 & Hrun & Hok1 & Hl1 & Hf1).
    destruct (IH app1 w1 Hall Hok1) as (app2 & w2 & Hrun2 & Hok2 & Hl2 & Hf2).
    exists app2, w2. cbn [for_each]. rewrite bind_run, Hrun, Hrun2.
    split; [done|]. split; [done|]. split; congruence.
Qed.

Lemma init_body_table (w : World) :
  hw w = [] ->
  exists (app : App.t) (g' : Rng),
    App.init_body 25 w = (Ok app, set_rng g' (set_hw boot_leds w)) /\
    App.current_animation app = 0 /\
    App.switch_every app = 15 /\
    length (App.animations app) = 6%nat /\
    forallb (forallb renderable) (App.animations app) = true.
Proof.
  destruct w as [h u ro f g t v c o l r s]. simpl. intros ->.
  vm_compute. do 2 eexists. split; [reflexivity|]. done.
Qed.

Lemma init_table (w : World) :
  hw w = [] ->
  exists (app : App.t) (w' : World),
    App.init 25 w = (Ok app, w') /\
    App.current_animation app = 0 /\
    App.switch_every app = 15 /\
    length (App.animations app) = 6%nat /\
    forallb (forallb renderable) (App.animations app) = true.
Proof.
  intros Hhw. unfold App.init. rewrite bind_run, is_usb_connected_run.
  set (w1 := if usb w then w else set_fs_readonly true w).
  assert (hw w1 = []) as Hhw1 by (unfold w1; destruct (usb w); by destruct w).
  destruct (usb w); cbn [negb]; rewrite bind_run.
  - cbn [mret M_ret]. destruct (init_body_table w1 Hhw1) as (app & g' & -> & H).
    by do 2 eexists.
  - rewrite init_state_file_run.
    set (w2 := match files w1 !! state_file with Some _ => w1 | None => _ end).
    assert (hw w2 = []) as Hhw2.
    { unfold w2. destruct (files w1 !! state_file); [done|].
      rewrite set_state_run. cbn [snd]. destruct (usb w1); [done|]. by destruct w1. }
    destruct (init_body_table w2 Hhw2) as (app & g' & -> & H).
    by do 2 eexists.
Qed.

(** X7: the table built by [__init__] can be run for ever.  From it, any
    sequence of the periodic tasks (frame rendering, telemetry, scene
    rotation) at any clock readings returns normally: no index leaves a
    list, no division is by zero; the scene index stays inside the table,
    whose length never changes, and the state file is never touched.  Only
    the shutdown task ends the loop. *)
Theorem loop_never_fails (math : Math) (w : World) :
  hw w = [] ->
  exists (app : App.t) (w0 : World),
    App.init 25 w = (Ok app, w0) /\
    forall (start : Z) (w1 : World) (calls : list (Z * Coroutine)),
      Forall (fun call => call.2 <> halt_task) calls ->
      exists (app' : App.t) (w' : World),
        for_each calls (invoke math) (App.with_start start app, w1)
        = (Ok tt, (app', w')) /\
        0 <= App.current_animation app' < Z.of_nat (length (App.animations app')) /\
        length (App.animations app') = length (App.animations app) /\
        files w' = files w1.
Proof.
  intros Hhw.
  destruct (init_table w Hhw) as (app & w0 & Hrun & Hcur & Hsw & Hlen & Htab).
  exists app, w0. split; [done|]. intros start w1 calls Hcalls.
  assert (table_ok (App.with_start start app)) as Hok.
  { split.
    - unfold index_ok.
      cbn [App.with_start App.animations App.current_animation App.switch_every].
      rewrite Hsw, Hcur, Hlen. lia.
    - cbn [App.with_start App.animations]. apply Forall_forall. intros scene Hscene.
      apply Forall_forall. intros a Ha.
      rewrite forallb_forall in Htab.
      apply list_elem_of_In in Hscene, Ha.
      specialize (Htab scene Hscene). rewrite forallb_forall in Htab. by apply Htab. }
  destruct (invokes_ok math calls _ w1 Hcalls Hok) as (app' & w' & Hr & [Hidx _] & Hl & Hf).
  exists app', w'. split; [done|]. split; [apply Hidx|]. done.
Qed.

(** * The frame counter *)


Lemma int_div_of_int (a b : Z) :
  0 < b -> Py.int (Py.of_int a / Py.of_int b)%Qc = a ÷ b.
Proof.
  intros Hb.
  assert (0 < Py.of_int b)%Qc as Hb' by (by apply (of_int_lt 0)).
  assert (Py.of_int b <> 0%Qc) as Hb0 by (apply of_int_neq_0; lia).
  assert (forall c, 0 <= c -> Py.int (Py.of_int c / Py.of_int b)%Qc = c ÷ b) as Hpos.
  { intros c Hc. rewrite int_floor_nonneg.
    - rewrite floor_div_of_int by done. symmetry. apply Z.quot_div_nonneg; lia.
    - assert (0 <= Py.of_int c)%Qc as Hc' by (by apply (of_int_le 0)).
      apply (Qcmult_le_mono_pos_r _ _ (Py.of_int b) Hb').
      rewrite Qcmult_0_l. unfold Qcdiv.
      by rewrite <- Qcmult_assoc, Qcmult_inv_l, Qcmult_1_r. }
  destruct (Z.le_gt_cases 0 a) as [Ha|Ha]; [by apply Hpos|].
  replace (Py.of_int a / Py.of_int b)%Qc with (- (Py.of_int (- a) / Py.of_int b))%Qc.
  - rewrite int_opp, Hpos by lia. rewrite Z.quot_opp_l by lia. lia.
  - replace (Py.of_int (- a)) with (- Py.of_int a)%Qc.
    + field. done.
    + apply Qc_is_canon. cbn. rewrite !Qred_correct.
      by rewrite inject_Z_opp.
Qed.

Lemma frame_number_closed (app : App.t) (w : World) :
  App.frame_number (app, w)
  = (Ok ((App.frame_rate app * (monotonic_ns w - App.start app)) ÷ 1000000000),
     (app, w)).
Proof.
  rewrite frame_number_run. f_equal. f_equal.
  rewrite <- int_div_of_int by lia. f_equal. unfold elapsed_at.
  rewrite of_int_mul. field. by apply of_int_neq_0.
Qed.

(** X8: [frame_number] counts frames from [start], and reading it changes
    nothing.  For a frame rate between 0 and [exact_int] and a clock within
    [clock_range] of [start], it returns; it is 0 at [start]; a whole number
    [k] of seconds after [start] it is exactly [frame_rate * k] (as long as
    that is at most [exact_int] in size); and it never goes back when the
    clock advances. *)
Theorem frame_number_counts_frames (app : App.t) (w : World) (now : Z) :
  0 <= App.frame_rate app <= exact_int ->
  Z.abs (now - App.start app) <= clock_range ->
  let at_ (t : Z) := App.frame_number (app, set_monotonic_ns t w) in
  exists n : Z,
    at_ now = (Ok n, (app, set_monotonic_ns now w)) /\
    (now = App.start app -> n = 0) /\
    (forall k : Z,
        now - App.start app = k * 1000000000 ->
        Z.abs (App.frame_rate app * k) <= exact_int ->
        n = App.frame_rate app * k) /\
    (forall later : Z,
        now <= later -> Z.abs (later - App.start app) <= clock_range ->
        exists n' : Z,
          at_ later = (Ok n', (app, set_monotonic_ns later w)) /\ n <= n').
Proof.
  intros Hfr _ at_. unfold at_.
  assert (forall t, App.frame_number (app, set_monotonic_ns t w)
                    = (Ok ((App.frame_rate app * (t - App.start app)) ÷ 1000000000),
                       (app, set_monotonic_ns t w))) as Hrun
    by (intros t; by rewrite frame_number_closed).
  eexists. split; [apply Hrun|]. split_and!.
  - intros ->. by rewrite Z.sub_diag, Z.mul_0_r.
  - intros k Hk _. rewrite Hk, Z.mul_assoc. apply Z.quot_mul. lia.
  - intros later Hle _. eexists. split; [apply Hrun|].
    apply Z.quot_le_mono; [lia|]. nia.
Qed.

(** * Persisted state: round trip and startup decisions *)

(** X9: off USB, what [set_state] writes is what [get_last_state] reads
    back, up to [strip]: the tokens ACTIVE and SLEEP come back as they are.
    The write leaves the file system mounted read-only, replaces only the
    state file and raises nothing. *)
Theorem set_state_round_trip (state : string) (w : World) :
  usb w = false ->
  exists w' : World,
    App.set_state state w = (Ok tt, w') /\
    App.get_last_state w' = (Ok (strip state), w') /\
    (state = STATE_ACTIVE \/ state = STATE_SLEEP -> strip state = state) /\
    fs_readonly w' = true /\
    files w' = <[state_file := state]> (files w) /\
    hw w' = hw w /\ stdout w' = stdout w.
Proof.
  intros Hu. rewrite set_state_run, Hu. eexists. split; [reflexivity|].
  rewrite get_last_state_run.
  destruct w as [h u ro f g t v c o l r z]. wsimpl.
  rewrite lookup_insert_eq. split; [done|]. split; [|done].
  by intros [-> | ->].
Qed.

(** X10: [init_state_file] never overwrites a state file that exists: the
    board is left exactly as it was.  When the file is missing it is created
    holding ACTIVE off USB, and left missing on USB (the write is skipped);
    in no case is an exception raised. *)
Theorem init_state_file_keeps_existing (w : World) :
  (forall s : string,
      files w !! state_file = Some s -> App.init_state_file w = (Ok tt, w)) /\
  (files w !! state_file = None -> usb w = true ->
   App.init_state_file w = (Ok tt, w)) /\
  (files w !! state_file = None -> usb w = false ->
   exists w' : World,
     App.init_state_file w = (Ok tt, w') /\
     files w' = <[state_file := STATE_ACTIVE]> (files w) /\
     App.get_last_state w' = (Ok STATE_ACTIVE, w')).
Proof.
  split; [|split].
  - intros s Hs. by rewrite init_state_file_run, Hs.
  - intros Hf Hu. by rewrite init_state_file_run, Hf, set_state_run, Hu.
  - intros Hf Hu. rewrite init_state_file_run, Hf, set_state_run, Hu. cbn [snd].
    eexists. split; [reflexivity|]. rewrite get_last_state_run.
    destruct w as [h u ro f g t v c o l r z]. wsimpl.
    by rewrite lookup_insert_eq.
Qed.

Lemma run_cases (run_for : Z) (app : App.t) (w : World) :
  let w1 := set_stdout (stdout w ++ [out_fancy_title; out_last_state (last_state w)]) w in
  App.run run_for (app, w)
  = if String.eqb (last_state w) STATE_ACTIVE && negb (usb w)
    then
      (Raise HaltException,
       (app,
        set_hw (foldl (fun h r => alter Led.off_obj r h) (hw w) (App.leds app))
          (set_fs_readonly true
             (set_files (<[state_file := STATE_SLEEP]> (files w))
                (set_stdout (stdout w1 ++ [out_going_to_sleep]) w1)))))
    else
      let w2 :=
        if String.eqb (last_state w) STATE_SLEEP && negb (usb w)
        then set_fs_readonly true
               (set_files (<[state_file := STATE_ACTIVE]> (files w)) w1)
        else w1 in
      (Ok tt,
       (App.with_start (monotonic_ns w) app,
        loop_started (App.frame_rate app) run_for w2)).
Proof.
  destruct w as [h u ro f g t v c o l r z]. unfold last_state. wsimpl.
  set (last := match f !! state_file with Some s => strip s | None => STATE_UNKNOWN end).
  unfold App.run.
  world_step print_run.
  world_step get_last_state_run. fold last.
  world_step print_run.
  world_step get_last_state_run. fold last.
  rewrite bind_run.
  destruct (String.eqb last STATE_ACTIVE) eqn:Ha.
  - rewrite bind_run, world_run, is_usb_connected_run. wsimpl.
    destruct u; cbn [negb andb].
    + cbn [mret M_ret].
      world_step get_last_state_run. fold last.
      apply String.eqb_eq in Ha. rewrite Ha.
      rewrite bind_run. cbn [String.eqb Ascii.eqb Bool.eqb STATE_ACTIVE STATE_SLEEP mret M_ret].
      rewrite bind_run. cbn [App.self fst snd].
      do 4 world_step loop_schedule_run.
      rewrite bind_run, world_run. wsimpl.
      rewrite bind_run. cbn [App.update_self modify fst snd].
      rewrite world_run. unfold App.loop_run, modify, loop_started, scheduled. wsimpl.
      by rewrite <- !app_assoc.
    + rewrite halt_run, print_run. wsimpl. rewrite set_state_run. wsimpl.
      rewrite blank_run. wsimpl. by rewrite <- !app_assoc.
  - cbn [andb mret M_ret].
    world_step get_last_state_run. fold last.
    rewrite bind_run.
    destruct (String.eqb last STATE_SLEEP) eqn:Hs; cbn [andb].
    + rewrite world_run, set_state_run. wsimpl.
      destruct u; cbn [negb]; wsimpl;
        rewrite bind_run; cbn [App.self fst snd];
        do 4 world_step loop_schedule_run;
        rewrite bind_run, world_run; wsimpl;
        rewrite bind_run; cbn [App.update_self modify fst snd];
        rewrite world_run; unfold App.loop_run, modify, loop_started, scheduled; wsimpl;
        by rewrite <- !app_assoc.
    + cbn [mret M_ret].
      rewrite bind_run. cbn [App.self fst snd].
      do 4 world_step loop_schedule_run.
      rewrite bind_run, world_run. wsimpl.
      rewrite bind_run. cbn [App.update_self modify fst snd].
      rewrite world_run. unfold App.loop_run, modify, loop_started, scheduled. wsimpl.
      destruct u; by rewrite <- !app_assoc.
Qed.

(** X11: the startup decision of [run].  It raises the halt signal exactly
    when the state read is ACTIVE and there is no USB host: then nothing is
    scheduled, the loop is not started and the state file holds SLEEP.  In
    every other case it returns with its four tasks appended, the loop
    started, [start] set to the clock and the outputs untouched, and the
    state file is rewritten (to ACTIVE) only when the state read is SLEEP
    and there is no USB host. *)
Theorem run_halts_or_schedules (run_for : Z) (app : App.t) (w : World) :
  let halts := String.eqb (last_state w) STATE_ACTIVE && negb (usb w) in
  let wakes := String.eqb (last_state w) STATE_SLEEP && negb (usb w) in
  exists (app' : App.t) (w' : World),
    (App.run run_for (app, w)).2 = (app', w') /\
    (halts = true ->
     (App.run run_for (app, w)).1 = Raise HaltException /\
     app' = app /\
     loop_tasks w' = loop_tasks w /\ loop_running w' = loop_running w /\
     files w' = <[state_file := STATE_SLEEP]> (files w)) /\
    (halts = false ->
     (App.run run_for (app, w)).1 = Ok tt /\
     App.start app' = monotonic_ns w /\
     loop_tasks w' = loop_tasks w ++ scheduled (App.frame_rate app) run_for /\
     loop_running w' = true /\
     hw w' = hw w /\
     files w' = if wakes then <[state_file := STATE_ACTIVE]> (files w) else files w).
Proof.
  intros halts wakes. rewrite run_cases. fold halts wakes.
  destruct halts.
  - do 2 eexists. split; [reflexivity|]. split; [|done]. intros _.
    by destruct w.
  - cbv zeta. do 2 eexists. split; [reflexivity|]. split; [done|]. intros _.
    destruct w as [h u ro f g t v c o l r z]. by destruct wakes.
Qed.

Lemma last_state_after_init (w : World) (g' : Rng) :
  let w1 := set_rng g' (set_hw boot_leds (after_state_init w)) in
  usb w1 = usb w /\
  String.eqb (last_state w1) STATE_ACTIVE && negb (usb w1)
  = negb (usb w)
    && match files w !! state_file with
       | None => true
       | Some s => String.eqb (strip s) STATE_ACTIVE
       end /\
  String.eqb (last_state w1) STATE_SLEEP && negb (usb w1)
  = String.eqb (last_state w) STATE_SLEEP && negb (usb w) /\
  (files w1 = files w
   \/ (usb w = false /\ files w !! state_file = None
       /\ files w1 = <[state_file := STATE_ACTIVE]> (files w))).
Proof.
  destruct w as [h u ro f g t v c o l r z].
  unfold after_state_init, last_state. wsimpl.
  destruct u; wsimpl.
  - split; [done|]. rewrite !andb_false_r. by auto.
  - destruct (f !! state_file) as [s|] eqn:Hf; wsimpl.
    + rewrite Hf, !andb_true_r. by auto.
    + rewrite lookup_insert_eq. split; [done|]. split; [done|]. split; [done|].
      right. by auto.
Qed.

(** X12: the script never fails at startup.  From a board with no Led
    objects yet, [main] always returns: it ends asleep, outputs blank, SLEEP
    in the state file and no loop started, exactly when there is no USB host
    and the state file is missing or reads ACTIVE; in every other case the
    loop is started with the four tasks of a 240-minute run, and the state
    file is rewritten (to ACTIVE) only when it read SLEEP off USB. *)
Theorem main_sleeps_or_runs (w : World) :
  hw w = [] ->
  let goes_to_sleep :=
    negb (usb w)
    && match files w !! state_file with
       | None => true
       | Some s => String.eqb (strip s) STATE_ACTIVE
       end in
  let wakes := String.eqb (last_state w) STATE_SLEEP && negb (usb w) in
  exists w' : World,
    main w = (Ok tt, w') /\
    (goes_to_sleep = true ->
     sleeping w' = true /\ loop_running w' = loop_running w /\
     loop_tasks w' = loop_tasks w /\ all_blank (hw w') /\
     files w' !! state_file = Some STATE_SLEEP) /\
    (goes_to_sleep = false ->
     sleeping w' = sleeping w /\ loop_running w' = true /\
     loop_tasks w' = loop_tasks w ++ scheduled 25 (60 * 4) /\
     files w' = if wakes then <[state_file := STATE_ACTIVE]> (files w) else files w).
Proof.
  intros Hhw goes_to_sleep wakes.
  destruct (start_app_run w Hhw) as (app & g' & Hrun & Hleds & Hfr).
  cbv zeta in Hrun.
  destruct (last_state_after_init w g') as (Hu & Hhalt & Hwake & Hfiles).
  cbv zeta in Hu, Hhalt, Hwake, Hfiles.
  set (w1 := set_rng g' (set_hw boot_leds (after_state_init w))) in *.
  fold goes_to_sleep in Hhalt. fold wakes in Hwake.
  rewrite run_cases, Hhalt in Hrun. rewrite main_run, Hrun.
  assert (hw w1 = boot_leds /\ loop_tasks w1 = loop_tasks w
          /\ loop_running w1 = loop_running w /\ sleeping w1 = sleeping w)
    as (Hh1 & Hl1 & Hr1 & Hs1).
  { unfold w1, after_state_init. destruct w as [h u ro f g t v c o l r z]. wsimpl.
    destruct u; [done|]. by destruct (f !! state_file). }
  assert (goes_to_sleep
          = negb (usb w)
            && match files w !! state_file with
               | None => true
               | Some s => String.eqb (strip s) STATE_ACTIVE
               end) as Hgs by reflexivity.
  clearbody goes_to_sleep. destruct goes_to_sleep.
  - cbn [fst snd]. eexists. split; [reflexivity|]. split; [|done]. intros _.
    rewrite Hleds, Hh1.
    destruct w1 as [h u ro f g t v c o l r z]. cbn in Hl1, Hr1. wsimpl.
    split; [done|]. split; [done|]. split; [done|].
    split; [by repeat constructor|]. apply lookup_insert_eq.
  - cbv zeta in Hrun |- *. cbn [fst snd]. rewrite Hwake, Hfr.
    eexists. split; [reflexivity|]. split; [done|]. intros _.
    assert (wakes = true -> files w1 = files w) as Hfw.
    { intros Hw. destruct Hfiles as [?|(Hu0 & Hnone & _)]; [done|].
      unfold wakes, last_state in Hw. rewrite Hnone in Hw. by vm_compute in Hw. }
    assert (wakes = false -> files w1 = files w) as Hfn.
    { intros Hw. destruct Hfiles as [?|(Hu0 & Hnone & _)]; [done|].
      exfalso. revert Hgs. by rewrite Hu0, Hnone. }
    unfold loop_started.
    destruct w1 as [h u ro f g t v c o l r z]. cbn in Hl1, Hr1, Hs1, Hfw, Hfn. subst.
    destruct wakes; wsimpl; [rewrite Hfw by done|rewrite Hfn by done]; done.
Qed.

(** * Frame rates the program can be built for *)

Lemma register_led_run (self_leds : list Led.ref) (p : Pin) (m : Z) (w : World) :
  App.register_led self_leds p m w
  = (Ok (length (hw w), self_leds ++ [length (hw w)]),
     set_hw (hw w ++ [Led.make p pwm_freq m 0]) w).
Proof. reflexivity. Qed.

(** [RandomGlitch.__init__] on a whole number of seconds, once the number of
    segments is known. *)
Lemma RandomGlitch_init_whole leds (dz fr : Z) off sm gd (g : Rng) (n m : Z) :
  let gd' := if Py.eqb gd 0%Qc then (Py.of_int dz / Py.of_int 10)%Qc else gd in
  gd' <> 0%Qc ->
  0 < m ->
  (Py.of_int dz / gd')%Qc = (Py.of_int n / Py.of_int m)%Qc ->
  exists (r : outcome Animation.t) (g' : Rng),
    RandomGlitch.init leds (Py.of_int dz) fr off sm gd g = (r, g') /\
    ((n ÷ m <= 0 /\ r = Raise ZeroDivisionError)
     \/ (0 < n ÷ m /\ (dz * fr) mod (n ÷ m) <> 0 /\ r = Raise ValueError)
     \/ (0 < n ÷ m /\ (dz * fr) mod (n ÷ m) = 0 /\ exists a, r = Ok a)).
Proof.
  intros gd' Hgd Hm Hq.
  destruct (RandomGlitch_init_run leds (Py.of_int dz) fr off sm gd g)
    as (r & g' & Hrun & Hr).
  fold gd' in Hr. exists r, g'. split; [done|].
  assert (Animation.frame_count (Animation.init leds (Py.of_int dz) fr off sm) = dz * fr)
    as Hfc by (cbn; by rewrite <- of_int_mul, int_of_int).
  assert (Py.int (Py.of_int dz / gd')%Qc = n ÷ m) as Hk'
    by (by rewrite Hq, int_div_of_int).
  destruct Hr as [H0|H0 Hk|H0 Hk Hmod|gv H0 Hk Hmod Hl];
    rewrite ?Hfc, ?Hk' in *; [done|by auto|by auto|].
  right. right. by eauto.
Qed.

Lemma default_glitch leds (dz fr : Z) (g : Rng) :
  dz <> 0 ->
  exists (r : outcome Animation.t) (g' : Rng),
    RandomGlitch.init leds (Py.of_int dz) fr 0%Qc 1%Qc 0%Qc g = (r, g') /\
    (((dz * fr) mod 10 <> 0 /\ r = Raise ValueError)
     \/ ((dz * fr) mod 10 = 0 /\ exists a, r = Ok a)).
Proof.
  intros Hdz.
  assert (Py.of_int dz <> 0%Qc) as Hd by (by apply of_int_neq_0).
  assert (Py.of_int 10 <> 0%Qc) as H10 by (by apply of_int_neq_0).
  destruct (RandomGlitch_init_whole leds dz fr 0%Qc 1%Qc 0%Qc g 10 1)
    as (r & g' & Hrun & Hr).
  - change (Py.eqb 0%Qc 0%Qc) with true. cbv iota. unfold Qcdiv.
    intros [?|H]%Qcmult_integral; [done|].
    apply (f_equal (Qcmult (Py.of_int 10))) in H.
    rewrite Qcmult_inv_r, Qcmult_0_r in H by done. done.
  - lia.
  - change (Py.eqb 0%Qc 0%Qc) with true. cbv iota.
    change (Py.of_int 1) with 1%Qc.
    generalize dependent (Py.of_int 10). generalize dependent (Py.of_int dz).
    intros x Hx y Hy. by field.
  - exists r, g'. split; [done|]. change (10 ÷ 1) with 10 in Hr.
    destruct Hr as [[? _]|[(_ & ? & ?)|(_ & ? & ?)]]; [lia|by auto|by auto].
Qed.

Lemma candle_glitch leds (fr : Z) (g : Rng) :
  fr <> 0 ->
  exists (r : outcome Animation.t) (g' : Rng),
    RandomGlitch.init leds (Py.of_int 2) fr 0%Qc 1%Qc
      (1 / Py.of_int fr * Py.of_int 5)%Qc g = (r, g') /\
    (((2 * fr) ÷ 5 <= 0 /\ r = Raise ZeroDivisionError)
     \/ (0 < (2 * fr) ÷ 5 /\ (2 * fr) mod ((2 * fr) ÷ 5) <> 0 /\ r = Raise ValueError)
     \/ (0 < (2 * fr) ÷ 5 /\ (2 * fr) mod ((2 * fr) ÷ 5) = 0 /\ exists a, r = Ok a)).
Proof.
  intros Hfr.
  assert (Py.of_int fr <> 0%Qc) as Hf by (by apply of_int_neq_0).
  assert (Py.of_int 5 <> 0%Qc) as H5 by (by apply of_int_neq_0).
  assert ((1 / Py.of_int fr * Py.of_int 5)%Qc <> 0%Qc) as Hgd.
  { intros [H|H]%Qcmult_integral; [|done].
    apply (f_equal (Qcmult (Py.of_int fr))) in H.
    rewrite Qcmult_div_r, Qcmult_0_r in H by done. done. }
  assert (Py.eqb (1 / Py.of_int fr * Py.of_int 5)%Qc 0%Qc = false) as Heq
    by (by apply eqb_neq).
  destruct (RandomGlitch_init_whole leds 2 fr 0%Qc 1%Qc
              (1 / Py.of_int fr * Py.of_int 5)%Qc g (2 * fr) 5)
    as (r & g' & Hrun & Hr).
  - by rewrite Heq.
  - lia.
  - rewrite Heq, of_int_mul. by field.
  - by exists r, g'.
Qed.

Lemma on_rng_run {A} (m : M Rng A) (w : World) :
  on_rng m w = ((m (rng w)).1, set_rng (m (rng w)).2 w).
Proof. unfold on_rng, zoom. by destruct (m (rng w)). Qed.

Lemma init_body_frame_rate (fr : Z) (w : World) :
  hw w = [] ->
  exists (r : outcome App.t) (w' : World),
    App.init_body fr w = (r, w') /\
    (((0 < fr /\ fr mod 5 = 0) /\
      exists app : App.t,
        r = Ok app /\ App.frame_rate app = fr /\ App.current_animation app = 0
        /\ length (App.animations app) = 6%nat)
     \/ (~ (0 < fr /\ fr mod 5 = 0) /\
         (r = Raise ValueError \/ r = Raise ZeroDivisionError))).
Proof.
  destruct w as [h u ro f g t v c o l r z]. wsimpl. intros ->.
  unfold App.init_body.
  do 4 (rewrite bind_run, register_led_run; wsimpl; cbn [length app]).
  rewrite bind_run, blank_run. wsimpl.
  match goal with |- context [set_hw ?a (set_hw ?b ?c)] =>
    set (w1 := set_hw a (set_hw b c)) end.
  rewrite bind_run. unfold py_div at 1. rewrite of_int_eqb_0.
  destruct (Z.eqb_spec fr 0) as [->|Hfr].
  { do 2 eexists. split; [reflexivity|]. right. split; [lia|by right]. }
  cbn [mret M_ret].
  rewrite bind_run, on_rng_run.
  destruct (candle_glitch (OneLed 1%nat) fr (rng w1) Hfr) as (r1 & g1 & -> & Hc).
  cbn [fst snd].
  destruct Hc as [(Hk & ->)|[(Hk & Hm & ->)|(Hk & Hm & candle & ->)]];
    cbv beta iota.
  { do 2 eexists. split; [reflexivity|]. right. split; [|by right].
    intros [Hpos Hmod]. Z.to_euclidean_division_equations. lia. }
  { do 2 eexists. split; [reflexivity|]. right. split; [|by left].
    intros [Hpos Hmod]. apply Hm.
    rewrite Z.quot_div_nonneg by lia.
    assert (fr = 5 * (fr / 5)) as Hfr5 by (apply Z_div_exact_full_2; [lia|done]).
    rewrite Hfr5 at 1 2.
    replace (2 * (5 * (fr / 5))) with ((2 * (fr / 5)) * 5) by lia.
    rewrite Z.div_mul by lia.
    replace (2 * (fr / 5) * 5) with (5 * (2 * (fr / 5))) by lia.
    apply Z_mod_mult. }
  set (w2 := set_rng g1 w1).
  rewrite bind_run, on_rng_run.
  destruct (default_glitch (OneLed 2%nat) 4 fr (rng w2) ltac:(lia)) as (r2 & g2 & -> & Hc2).
  cbn [fst snd].
  destruct Hc2 as [(Hm2 & ->)|(Hm2 & g_red & ->)]; cbv beta iota.
  { do 2 eexists. split; [reflexivity|]. right. split; [|by left].
    clear Hm. intros [Hpos Hmod]. Z.to_euclidean_division_equations. lia. }
  set (w3 := set_rng g2 w2).
  rewrite bind_run, on_rng_run.
  destruct (default_glitch (OneLed 3%nat) 4 fr (rng w3) ltac:(lia)) as (r3 & g3 & -> & Hc3).
  cbn [fst snd].
  destruct Hc3 as [(Hm3 & ->)|(Hm3 & g_green & ->)]; [lia|]; cbv beta iota.
  set (w4 := set_rng g3 w3).
  rewrite bind_run, on_rng_run.
  destruct (default_glitch (OneLed 0%nat) 2 fr (rng w4) ltac:(lia)) as (r4 & g4 & -> & Hc4).
  cbn [fst snd].
  destruct Hc4 as [(Hm4 & ->)|(Hm4 & g_light & ->)]; cbv beta iota.
  { do 2 eexists. split; [reflexivity|]. right. split; [|by left].
    clear Hm. intros [Hpos Hmod]. Z.to_euclidean_division_equations. lia. }
  do 2 eexists. split; [reflexivity|]. left. split.
  - clear Hm. split; Z.to_euclidean_division_equations; lia.
  - eexists. split; [reflexivity|]. done.
Qed.

Lemma init_is_body (w : World) :
  exists w2 : World,
    hw w2 = hw w /\ forall fr : Z, App.init fr w = App.init_body fr w2.
Proof.
  unfold App.init.
  destruct (usb w) eqn:Hu.
  - exists w. split; [done|]. intros fr.
    by rewrite bind_run, is_usb_connected_run, Hu.
  - set (w1 := set_fs_readonly true w).
    exists (match files w1 !! state_file with
            | Some _ => w1
            | None => (App.set_state STATE_ACTIVE w1).2
            end). split.
    + destruct (files w1 !! state_file); [by destruct w|].
      rewrite set_state_run. cbn [snd]. destruct (usb w1); by destruct w.
    + intros fr. rewrite bind_run, is_usb_connected_run, Hu. cbn [negb].
      fold w1. by rewrite bind_run, init_state_file_run.
Qed.

(** X13: [App(frame_rate)] can be built only for a frame rate that is a
    positive multiple of 5 (every other one makes a constructor of the table
    raise), and the object it returns then has that frame rate and stands at
    scene 0 of a six-scene table; the program's own frame rate, 25, is one
    it can be built for. *)
Theorem app_init_frame_rates :
  (forall (frame_rate : Z) (w : World) (app : App.t) (w' : World),
      hw w = [] ->
      App.init frame_rate w = (Ok app, w') ->
      0 < frame_rate /\ frame_rate mod 5 = 0 /\
      App.frame_rate app = frame_rate /\ App.current_animation app = 0 /\
      length (App.animations app) = 6%nat) /\
  (forall w : World,
      hw w = [] ->
      exists (app : App.t) (w' : World),
        App.init 25 w = (Ok app, w') /\ App.frame_rate app = 25).
Proof.
  split.
  - intros fr w app w' Hhw Hrun.
    destruct (init_is_body w) as (w2 & Hhw2 & Hb). rewrite Hb in Hrun.
    rewrite Hhw in Hhw2.
    destruct (init_body_frame_rate fr w2 Hhw2) as (r & w3 & Hrun' & Hr).
    rewrite Hrun' in Hrun. injection Hrun as -> ->.
    destruct Hr as [[[Hpos Hmod] (app' & Happ & Hf & Hc & Hl)]|[_ [H|H]]];
      [|discriminate H..].
    injection Happ as <-. done.
  - intros w Hhw.
    destruct (init_run w Hhw) as (app & g' & Hrun & _ & _ & _ & Hfr & _).
    by eexists app, _.
Qed.

(** * Shutdown *)

(** X14: [halt] never returns: whatever the board, it raises the halt
    signal, and so does the loop when it calls the shutdown task.  By then
    it has printed one line, put every registered channel at 0 and left the
    others alone; the state file holds SLEEP when there is no USB host and
    is untouched when there is one. *)
Theorem halt_always_halts (math : Math) (now : Z) (app : App.t) (w : World) :
  exists w' : World,
    App.halt (A := unit) (app, w) = (Raise HaltException, (app, w')) /\
    (invoke math (now, halt_task) (app, w)).1 = Raise HaltException /\
    stdout w' = stdout w ++ [out_going_to_sleep] /\
    (forall r : Led.ref,
        hw w' !! r = (fun l => if decide (r ∈ App.leds app)
                               then Led.make (Led.pin l) (Led.frequency l)
                                      (Led._max_duty_cycle l) 0
                               else l) <$> hw w !! r) /\
    files w' = (if usb w then files w
                else <[state_file := STATE_SLEEP]> (files w)) /\
    loop_tasks w' = loop_tasks w.
Proof.
  eexists. split; [apply halt_run|]. split.
  - unfold invoke. cbn [fst snd]. rewrite bind_run, world_run. cbn [modify fst snd].
    by rewrite halt_run.
  - rewrite print_run, set_state_run, blank_run. cbn [snd].
    destruct w as [h u ro f g t v c o l r z]. destruct u; wsimpl.
    all: split; [done|]; split; [|done]; intros i;
      rewrite foldl_alter_lookup by apply off_obj_idemp;
      destruct (h !! i); [|done]; cbn; by destruct (decide _).
Qed.

(** * The statements on concrete inputs *)

(** C1 as the specification words it fails on a board with no state file
    and no USB host: the run does not return with the loop started. *)
Lemma no_state_file_counterexample :
  ~ (forall w : World,
        hw w = [] -> usb w = false -> files w !! state_file = None ->
        exists w' : World,
          start_app w = (Ok tt, w') /\
          out_last_state STATE_UNKNOWN ∈ stdout w' /\
          files w' !! state_file = Some STATE_ACTIVE /\
          loop_running w' = true).
Proof.
  intros H.
  destruct (H (cold_boot false ∅)) as (w' & Hrun & _); [by vm_compute..|].
  vm_compute in Hrun. discriminate Hrun.
Qed.

Lemma no_state_file_startup_witness :
  let w := cold_boot false ∅ in
  (hw w = [] /\ files w !! state_file = None /\ usb w = false) /\
  exists w' : World,
    start_app w = (Raise HaltException, w') /\
    stdout w' = stdout w ++ [out_fancy_title; out_last_state STATE_ACTIVE;
                             out_going_to_sleep] /\
    files w' !! state_file = Some STATE_SLEEP /\
    all_blank (hw w') /\
    loop_tasks w' = loop_tasks w /\
    loop_running w' = loop_running w.
Proof.
  intros w.
  assert (hw w = []) as Hhw by reflexivity.
  assert (files w !! state_file = None) as Hf by (by vm_compute).
  assert (usb w = false) as Hu by reflexivity.
  split; [done|].
  apply (proj1 (no_state_file_startup w Hhw Hf) Hu).
Defined.

Lemma active_on_battery_halts_witness :
  let w := set_hw lit_leds (cold_boot false (<[state_file := STATE_ACTIVE]> ∅)) in
  (usb w = false /\ files w !! state_file = Some STATE_ACTIVE
   /\ strip STATE_ACTIVE = STATE_ACTIVE) /\
  exists w' : World,
    App.run (60 * 4) (six_scenes, w) = (Raise HaltException, (six_scenes, w')) /\
    Led.duty_cycle <$> hw w = [MAX_DUTY_CYCLE; 1000; 1; 2 ^ 14] /\
    Led.duty_cycle <$> hw w' = [0; 0; 0; 0] /\
    files w' !! state_file = Some STATE_SLEEP /\
    loop_tasks w' = [] /\
    loop_running w' = false.
Proof.
  intros w.
  assert (usb w = false) as Hu by reflexivity.
  assert (files w !! state_file = Some STATE_ACTIVE) as Hf by (by vm_compute).
  assert (strip STATE_ACTIVE = STATE_ACTIVE) as Hs by (by vm_compute).
  split; [done|].
  destruct (active_on_battery_halts (60 * 4) six_scenes w STATE_ACTIVE Hu Hf Hs)
    as (w' & Hrun & Hhw & Hfiles & _ & Hl & Hr & _).
  exists w'. split; [exact Hrun|]. split; [reflexivity|]. split.
  - apply list_eq. intros i. rewrite list_lookup_fmap, Hhw.
    destruct i as [|[|[|[|i]]]]; reflexivity.
  - rewrite Hfiles. split; [apply lookup_insert_eq|]. by rewrite Hl, Hr.
Defined.


Lemma set_all_scales_then_clamps_witness :
  let self := Animation.init (OneLed 0%nat) 1%Qc 25 0%Qc (1 / 2)%Qc in
  let l := Led.make D5 pwm_freq MAX_DUTY_CYCLE 0 in
  ((0 <= Py.of_int 2 * Animation.scale_max self)%Qc /\
   sixteen_bit one_led (Animation.leds self) /\
   0%nat ∈ Animation.leds self /\ one_led !! 0%nat = Some l /\
   (1 <= Py.of_int 2 * Animation.scale_max self)%Qc) /\
  (Animation.set_all self (Py.of_int 2) one_led).2 !! 0%nat
  = Some (Led.with_duty MAX_DUTY_CYCLE l).
Proof.
  intros self l.
  assert (0 <= Py.of_int 2 * Animation.scale_max self)%Qc as Hp by (by vm_compute).
  assert (sixteen_bit one_led (Animation.leds self)) as H16.
  { intros r k Hr Hk. apply list_elem_of_singleton in Hr as ->.
    injection Hk as <-. by vm_compute. }
  assert (0%nat ∈ Animation.leds self) as Hin by (by left).
  assert (one_led !! 0%nat = Some l) as Hl by reflexivity.
  assert (1 <= Py.of_int 2 * Animation.scale_max self)%Qc as H1 by (by vm_compute).
  split; [done|].
  destruct (set_all_scales_then_clamps self (Py.of_int 2) one_led Hp H16)
    as (h' & Hrun & Hch).
  destruct (proj2 (Hch 0%nat) Hin l Hl) as (d & Hd & _ & Hfull & _).
  rewrite Hrun. cbn [snd]. rewrite Hd. by rewrite (Hfull H1).
Defined.

Lemma frame_count_is_truncated_product_witness :
  let self := Animation.init (OneLed 0%nat) (Py.of_int 2) 25 0%Qc 1%Qc in
  let product := (Py.of_int 2 * Py.of_int 25)%Qc in
  (Z.abs 25 <= exact_int /\ (Py.of_int (- exact_int) <= product)%Qc /\
   (product <= Py.of_int exact_int)%Qc /\ product = Py.of_int 50) /\
  Animation.frame_count self = 50.
Proof.
  intros self product.
  assert (Z.abs 25 <= exact_int) as Hfr by (by vm_compute).
  assert (Py.of_int (- exact_int) <= product)%Qc as Hl by (by vm_compute).
  assert (product <= Py.of_int exact_int)%Qc as Hu by (by vm_compute).
  assert (product = Py.of_int 50) as Hn by (by apply Qc_is_canon).
  split; [done|].
  exact (proj1 (proj1 (frame_count_is_truncated_product no_math (OneLed 0%nat)
                         (Py.of_int 2) 25 0%Qc 1%Qc) Hfr Hl Hu) 50 Hn).
Defined.

Lemma scene_rotation_rule_witness :
  let app := six_scenes in
  let w := set_monotonic_ns 3000000000 (cold_boot false ∅) in
  0 < App.switch_every app /\
  App.elapsed (app, w) = (Ok (elapsed_at app w), (app, w)) /\
  ((Py.of_int 2 < elapsed_at app w)%Qc ->
   App.current_animation app = 0
   \/ Py.floor (elapsed_at app w) mod App.switch_every app = 0 ->
   App.current_animation (App.update_animation_set (app, w)).2.1
   = if decide (App.current_animation app + 1
                < Z.of_nat (length (App.animations app)))
     then App.current_animation app + 1 else 1).
Proof.
  intros app w.
  assert (0 < App.switch_every app) as Hsw by (by vm_compute).
  split; [exact Hsw|].
  pose proof (scene_rotation_rule app w Hsw) as H. cbv zeta in H.
  split; [apply H|]. apply H.
Defined.



Lemma set_state_skipped_on_usb_witness :
  let w := cold_boot true (<[state_file := STATE_ACTIVE]> ∅) in
  usb w = true /\
  is_usb_connected w = (Ok true, w) /\
  App.set_state STATE_SLEEP w = (Ok tt, w).
Proof.
  intros w. split; [reflexivity|].
  apply (set_state_skipped_on_usb STATE_SLEEP w). reflexivity.
Defined.

Lemma blink_is_binary_witness :
  let self := Blink.init (OneLed 0%nat) 1%Qc 25 0%Qc 1%Qc in
  (Animation.variant self = Blink /\ Animation.frame_count self <> 0) /\
  exec no_math self 13 one_led
  = Blink.render self (frame_in_animation self 13) (completed self 13) one_led.
Proof.
  intros self.
  assert (Animation.variant self = Blink) as Hv by reflexivity.
  assert (Animation.frame_count self <> 0) as H0 by (by vm_compute).
  split; [done|].
  apply (proj2 (proj2 (blink_is_binary no_math)) self 13 one_led Hv H0).
Defined.

Lemma scene_index_in_range_witness :
  let w := cold_boot false ∅ in
  hw w = [] /\
  exists (app : App.t) (w' : World),
    App.init 25 w = (Ok app, w') /\ App.current_animation app = 0.
Proof.
  intros w. split; [reflexivity|].
  destruct (scene_index_in_range w eq_refl) as (app & w' & Hrun & Hcur & _).
  by exists app, w'.
Defined.

(** * The further statements on concrete inputs *)

Lemma led_set_bounds_witness :
  let l := Led.make D5 pwm_freq MAX_DUTY_CYCLE 0 in
  one_led !! 0%nat = Some l /\
  exists d : Z,
    (Led.set 0%nat (1 / 2)%Qc one_led).2 !! 0%nat = Some (Led.with_duty d l) /\
    d <= Led._max_duty_cycle l.
Proof.
  intros l.
  assert (one_led !! 0%nat = Some l) as Hl by reflexivity.
  split; [exact Hl|].
  destruct (led_set_bounds 0%nat (1 / 2)%Qc one_led l Hl) as (d & Hd & Hle & _).
  by exists d.
Defined.

Lemma register_led_fresh_witness :
  let w := set_hw one_led (cold_boot false ∅) in
  Forall (fun r => (r < length (hw w))%nat) [0%nat] /\
  exists led : Led.ref,
    App.register_led [0%nat] D9 (2 ^ 14) w
    = (Ok (led, [0%nat] ++ [led]),
       set_hw (hw w ++ [Led.make D9 pwm_freq (2 ^ 14) 0]) w) /\
    led ∉ [0%nat].
Proof.
  intros w.
  assert (Forall (fun r => (r < length (hw w))%nat) [0%nat]) as Hin
    by (repeat constructor).
  split; [exact Hin|].
  destruct (register_led_fresh [0%nat] D9 (2 ^ 14) w Hin) as (led & Hrun & Hfresh & _).
  by exists led.
Defined.


Lemma loop_never_fails_witness :
  let w := cold_boot false ∅ in
  hw w = [] /\
  exists (app : App.t) (w0 : World), App.init 25 w = (Ok app, w0).
Proof.
  intros w. split; [reflexivity|].
  destruct (loop_never_fails no_math w eq_refl) as (app & w0 & Hrun & _).
  by exists app, w0.
Defined.

Lemma set_state_round_trip_witness :
  let w := cold_boot false ∅ in
  usb w = false /\
  exists w' : World,
    App.set_state STATE_SLEEP w = (Ok tt, w') /\
    App.get_last_state w' = (Ok (strip STATE_SLEEP), w').
Proof.
  intros w. split; [reflexivity|].
  destruct (set_state_round_trip STATE_SLEEP w eq_refl) as (w' & Hset & Hget & _).
  by exists w'.
Defined.

Lemma main_sleeps_or_runs_witness :
  let w := cold_boot false (<[state_file := STATE_SLEEP]> ∅) in
  hw w = [] /\ exists w' : World, main w = (Ok tt, w').
Proof.
  intros w. split; [reflexivity|].
  destruct (main_sleeps_or_runs w eq_refl) as (w' & Hrun & _).
  by exists w'.
Defined.

Lemma app_init_frame_rates_witness :
  let w := cold_boot true ∅ in
  hw w = [] /\
  exists (app : App.t) (w' : World),
    App.init 25 w = (Ok app, w') /\ App.frame_rate app = 25.
Proof.
  intros w. split; [reflexivity|].
  exact (proj2 app_init_frame_rates w eq_refl).
Defined.

Lemma frame_number_counts_frames_witness :
  let app := six_scenes in
  let w := cold_boot false ∅ in
  (0 <= App.frame_rate app <= exact_int /\
   Z.abs (3000000000 - App.start app) <= clock_range /\
   3000000000 - App.start app = 3 * 1000000000 /\
   Z.abs (App.frame_rate app * 3) <= exact_int) /\
  App.frame_number (app, set_monotonic_ns 3000000000 w)
  = (Ok 75, (app, set_monotonic_ns 3000000000 w)).
Proof.
  intros app w.
  assert (0 <= App.frame_rate app <= exact_int) as Hfr by (by vm_compute).
  assert (Z.abs (3000000000 - App.start app) <= clock_range) as Hc by (by vm_compute).
  assert (3000000000 - App.start app = 3 * 1000000000) as Hk by reflexivity.
  assert (Z.abs (App.frame_rate app * 3) <= exact_int) as Hn by (by vm_compute).
  split; [done|].
  destruct (frame_number_counts_frames app w 3000000000 Hfr Hc)
    as (n & Hrun & _ & Hwhole & _).
  rewrite Hrun. by rewrite (Hwhole 3 Hk Hn).
Defined.

Lemma static_hold_writes_once_witness :
  let self := Static.init 1%Qc (OneLed 0%nat) 1%Qc 25 0%Qc 1%Qc in
  (Animation.variant self = Static 1%Qc false /\ Animation.frame_count self <> 0) /\
  forall f frames,
    exec_frames no_math self (f :: frames) one_led
    = (Ok (Animation.with_variant (Static 1%Qc true) self),
       (Animation.set_all self 1%Qc one_led).2).
Proof.
  intros self.
  assert (Animation.variant self = Static 1%Qc false) as Hv by reflexivity.
  assert (Animation.frame_count self <> 0) as H0 by (by vm_compute).
  split; [done|].
  apply (proj2 (proj2 (static_hold_writes_once no_math self 1%Qc one_led Hv H0))).
Defined.

Lemma exec_periodic_on_half_frames_witness :
  let a := Blink.init (OneLed 0%nat) 1%Qc 25 (1 / 2)%Qc 1%Qc in
  ((Animation.offset a * Py.of_int (Animation.frame_rate a)
    = Py.of_int 25 / Py.of_int 2)%Qc /\
   Z.abs 25 <= exact_int /\ Z.abs (Animation.frame_rate a) <= exact_int /\
   Z.abs 7 <= exact_int /\ 0 < Z.abs (Animation.frame_count a) <= exact_int) /\
  exec no_math a (7 + Animation.frame_count a) one_led = exec no_math a 7 one_led.
Proof.
  intros a.
  assert (Animation.offset a * Py.of_int (Animation.frame_rate a)
          = Py.of_int 25 / Py.of_int 2)%Qc as Ho by (by apply Qc_is_canon).
  assert (Z.abs 25 <= exact_int) as Hk by (by vm_compute).
  assert (Z.abs (Animation.frame_rate a) <= exact_int) as Hfr by (by vm_compute).
  assert (Z.abs 7 <= exact_int) as Hf by (by vm_compute).
  assert (0 < Z.abs (Animation.frame_count a) <= exact_int) as Hfc by (by vm_compute).
  split; [done|].
  apply (proj1 (exec_periodic_on_half_frames no_math a 7 25 one_led Ho Hk Hfr Hf Hfc)).
Defined.
